(** * Verification of the ECDH test app (apps/ecdh-test)

    Shallow embedding of [src/apps/ecdh-test/src/ui.rs] (the [EcdhTestUi]
    message log, command dispatch, ECDH diagnostic run, hex formatting and
    bottom-anchored redraw) and of the event loop of
    [src/apps/ecdh-test/src/main.rs]. *)

From Stdlib Require Import List String Ascii Bool Arith Lia ZArith.
Import ListNotations.
Open Scope string_scope.

(** ** Strings of bytes *)

(** Rocq [string]s are sequences of 8-bit [ascii] characters, i.e. of
    bytes: a Rust [&str] is modelled by its UTF-8 bytes. *)

(** ** [xous::String<N>] *)
Module XousString.

(** Modelled from the spec: [xous::String<N>] (the xous-rs crate of this
    repository, not under src/).  A bounded text buffer of capacity [N]
    bytes; text written into it with [write!] beyond the capacity is cut
    at the capacity ("Truncates ... on strings exceeding the length cap
    rather than corrupting adjacent entries"). *)
Definition truncate (cap : nat) (s : string) : string :=
  string_of_list_ascii (firstn cap (list_ascii_of_string s)).

(** [write!(buf, ...)]: the formatted text is appended, bytes that do not
    fit are dropped; the [fmt::Result] is discarded by [.ok()] at every
    call site. *)
Definition write (cap : nat) (buf t : string) : string :=
  truncate cap (buf ++ t).

(** Modelled from the spec: [as_str]; every buffer of the app is written
    from [&str] text, so it is read back as it was written. *)
Definition as_str (s : string) : option string := Some s.

(** [.unwrap_or(d)] and [.unwrap()] on the result of [as_str]. *)
Definition unwrap_or (d : string) (r : option string) : string :=
  match r with Some s => s | None => d end.

End XousString.

(** ** [heapless::Vec<T, N>] *)
Module HVec.

(** [push]: [Err(x)] when the vector is full, the element is then dropped
    ([.ok()] at the call site). *)
Definition push {A} (cap : nat) (v : list A) (x : A) : list A :=
  if Nat.ltb (List.length v) cap then (v ++ [x])%list else v.

(** [remove(0)]: shifts the elements down; the call sites only use it on a
    non-empty vector (Rust panics on an empty one). *)
Definition remove0 {A} (v : list A) : list A :=
  match v with [] => [] | _ :: t => t end.

End HVec.

(** ** Geometry and the GAM drawing surface *)

(** [gam::Point] (i16 coordinates; for a canvas of height and width in
    [0, 32767] none of the arithmetic of [redraw] leaves the i16 range,
    so the coordinates are modelled as [Z]). *)
Record Point := mkPoint { px : Z; py : Z }.

(** The drawing commands [redraw] sends to the GAM. *)
Inductive DrawCmd :=
| DrawRectangle (tl br : Point)            (* the canvas clear *)
| PostTextView (tl br : Point) (text : string)  (* a text bounding box *)
| GamRedraw.

(** [EcdhTestUi]: the state the event loop owns.  [gam_out] records the
    drawing commands sent to the GAM, [log_sink] the [info!] lines. *)
Record EcdhTestUi := mkUi {
  history : list string;
  screensize : Point;
  gam_out : list DrawCmd;
  log_sink : list string
}.

Definition set_history (st : EcdhTestUi) (h : list string) : EcdhTestUi :=
  mkUi h (screensize st) (gam_out st) (log_sink st).

Definition info (st : EcdhTestUi) (line : string) : EcdhTestUi :=
  mkUi (history st) (screensize st) (gam_out st) ((log_sink st ++ [line])%list).

Definition post (st : EcdhTestUi) (cmds : list DrawCmd) : EcdhTestUi :=
  mkUi (history st) (screensize st) ((gam_out st ++ cmds)%list) (log_sink st).

(** [const MAX_HISTORY: usize = 20;] *)
Definition MAX_HISTORY : nat := 20.

(** [EcdhTestUi::add_message], on the [history] field it updates. *)
Definition history_push (history : list string) (msg : string) : list string :=
  let xstr := XousString.write 512 "" msg in
  let history := if Nat.leb MAX_HISTORY (List.length history)
                 then HVec.remove0 history else history in
  HVec.push MAX_HISTORY history xstr.

(** [EcdhTestUi::add_message] *)
Definition add_message (st : EcdhTestUi) (msg : string) : EcdhTestUi :=
  set_history st (history_push (history st) msg).

(** A [LogEntry]: the text as a [XousString<512>] holds it. *)
Definition log_entry (msg : string) : string := XousString.truncate 512 msg.

(** [self.history.clear()] *)
Definition clear_history (st : EcdhTestUi) : EcdhTestUi := set_history st [].

(** ** Hex formatting: [write!(s, "{:02x} ", b)] *)

(** A lowercase hex digit, as [core::fmt::LowerHex] prints it. *)
Definition hex_digit (d : nat) : ascii :=
  if Nat.ltb d 10 then ascii_of_nat (48 + d) else ascii_of_nat (87 + d).

(** The base-16 digits of [n], least significant first; [LowerHex] prints
    at least one digit. *)
Fixpoint lower_hex_rev (fuel n : nat) : list ascii :=
  match fuel with
  | 0 => []
  | S f => hex_digit (n mod 16)
             :: (if Nat.ltb n 16 then [] else lower_hex_rev f (n / 16))
  end.

Definition lower_hex (n : nat) : string :=
  string_of_list_ascii (rev (lower_hex_rev (S n) n)).

(** The [0] flag with width [w]: zeros are filled in on the left. *)
Definition pad_zero (w : nat) (s : string) : string :=
  string_of_list_ascii (repeat "0"%char (w - String.length s)) ++ s.

(** ["{:02x}"] for a [u8]. *)
Definition fmt_02x (b : Byte.byte) : string :=
  pad_zero 2 (lower_hex (Byte.to_nat b)).

(** [EcdhTestUi::format_hex] (a [XousString<256>]). *)
Definition format_hex (bytes : list Byte.byte) : string :=
  fold_left (fun result b => XousString.write 256 result (fmt_02x b ++ " "))
    bytes "".

Definition newline : string := String (ascii_of_nat 10) "".

(** [EcdhTestUi::bytes_to_log_string] (a [XousString<256>]); the pair is
    the string and the index [i] of [enumerate]. *)
Definition bytes_to_log_string (bytes : list Byte.byte) : string :=
  fst (fold_left
    (fun '(s, i) b =>
       let s := if Nat.ltb 0 i && Nat.eqb (i mod 16) 0
                then XousString.write 256 s newline else s in
       (XousString.write 256 s (fmt_02x b ++ " "), S i))
    bytes ("", 0)).

(** ** [str::trim] *)

(** The UTF-8 encodings of the characters with the Unicode [White_Space]
    property ([char::is_whitespace]): U+0009..U+000D, U+0020, U+0085,
    U+00A0, U+1680, U+2000..U+200A, U+2028, U+2029, U+202F, U+205F,
    U+3000. *)
Definition ws_encodings : list (list nat) :=
  [[9]; [10]; [11]; [12]; [13]; [32]; [194; 133]; [194; 160];
   [225; 154; 128]] ++
  map (fun k => [226; 128; 128 + k]) (seq 0 11) ++
  [[226; 128; 168]; [226; 128; 169]; [226; 128; 175]; [226; 129; 159];
   [227; 128; 128]].

Definition ws_seqs : list (list ascii) := map (map ascii_of_nat) ws_encodings.

Fixpoint strip_prefix (p l : list ascii) : option (list ascii) :=
  match p, l with
  | [], _ => Some l
  | c :: p', d :: l' => if Ascii.eqb c d then strip_prefix p' l' else None
  | _ :: _, [] => None
  end.

Fixpoint strip_first (seqs : list (list ascii)) (l : list ascii)
  : option (list ascii) :=
  match seqs with
  | [] => None
  | p :: ps => match strip_prefix p l with
               | Some r => Some r
               | None => strip_first ps l
               end
  end.

(** Drop leading whitespace characters; every encoding has at least one
    byte, so [length l] rounds suffice. *)
Fixpoint trim_start_bytes (fuel : nat) (seqs : list (list ascii))
    (l : list ascii) : list ascii :=
  match fuel with
  | 0 => l
  | S f => match strip_first seqs l with
           | Some r => trim_start_bytes f seqs r
           | None => l
           end
  end.

(** [trim]: whitespace removed at the start, then at the end (matching the
    reversed encodings on the reversed bytes). *)
Definition trim (s : string) : string :=
  let l := list_ascii_of_string s in
  let l1 := trim_start_bytes (List.length l) ws_seqs l in
  let l2 := rev (trim_start_bytes (List.length l1)
                   (map (@rev ascii) ws_seqs) (rev l1)) in
  string_of_list_ascii l2.

(** ** The diagnostic run and command dispatch *)

(** Byte-array equality [==] on [[u8; 32]]. *)
Definition bytes_eqb (a b : list Byte.byte) : bool :=
  if list_eq_dec Byte.byte_eq_dec a b then true else false.

Section Ecdh.

(** The x25519-dalek primitives (an external crate):
    [PublicKey::from(&StaticSecret::from(bytes))] and
    [StaticSecret::from(bytes).diffie_hellman(&public)]. *)
Variable x25519_public : list Byte.byte -> list Byte.byte.
Variable x25519_dh : list Byte.byte -> list Byte.byte -> list Byte.byte.

(** [let mut msg = XousString::<512>::new(); write!(msg, "<label>{}",
    Self::format_hex(bytes).as_str().unwrap()).ok();
    self.add_message(msg.as_str().unwrap_or(""));] *)
Definition hex_message (label : string) (bytes : list Byte.byte) : string :=
  let msg := XousString.write 512 ""
               (label ++ XousString.unwrap_or "" (XousString.as_str (format_hex bytes))) in
  XousString.unwrap_or "" (XousString.as_str msg).

(** [EcdhTestUi::cmd_run]; the two 32-byte TRNG draws
    ([trng.fill_bytes_via_next]) are the arguments [our_secret_bytes] and
    [peer_secret_bytes]. *)
Definition cmd_run (st : EcdhTestUi)
    (our_secret_bytes peer_secret_bytes : list Byte.byte) : EcdhTestUi :=
  let st := info st "=== STARTING ECDH TEST ===" in
  let st := add_message st "=== ECDH TEST ===" in
  let st := add_message st "1. Generating our keypair..." in
  let our_public := x25519_public our_secret_bytes in
  let st := info st ("Our private key: " ++ bytes_to_log_string our_secret_bytes) in
  let st := info st ("Our public key: " ++ bytes_to_log_string our_public) in
  let st := add_message st (hex_message "Our priv: " our_secret_bytes) in
  let st := add_message st (hex_message "Our pub:  " our_public) in
  let st := add_message st "2. Generating peer keypair..." in
  let peer_public := x25519_public peer_secret_bytes in
  let st := info st ("Peer private key: " ++ bytes_to_log_string peer_secret_bytes) in
  let st := info st ("Peer public key: " ++ bytes_to_log_string peer_public) in
  let st := add_message st (hex_message "Peer pub: " peer_public) in
  let st := add_message st "3. Computing ECDH..." in
  let st := info st "Computing ECDH: our_private.diffie_hellman(peer_public)" in
  let st := info st ("  Input private: " ++ bytes_to_log_string our_secret_bytes) in
  let st := info st ("  Input public:  " ++ bytes_to_log_string peer_public) in
  let shared_secret := x25519_dh our_secret_bytes peer_public in
  let st := info st ("  Output shared: " ++ bytes_to_log_string shared_secret) in
  let st := add_message st (hex_message "Shared:   " shared_secret) in
  let st := add_message st "4. Checking results..." in
  let st :=
    if bytes_eqb shared_secret peer_public then
      info (add_message st "BUG: shared == peer_pub!") "Shared secret equals peer public key!"
    else if bytes_eqb shared_secret our_public then
      info (add_message st "BUG: shared == our_pub!") "Shared secret equals our public key!"
    else
      info (add_message st "OK: shared != any pubkey") "ECDH output looks correct" in
  let st := info st "=== ECDH TEST COMPLETE ===" in
  add_message st "=== TEST COMPLETE ===".

(** [EcdhTestUi::handle_input]; the TRNG draws are only used by ["run"]. *)
Definition handle_input (st : EcdhTestUi) (input : string)
    (our_secret_bytes peer_secret_bytes : list Byte.byte) : EcdhTestUi :=
  let echo := XousString.write 512 "" (">" ++ input) in
  let st := add_message st (XousString.unwrap_or "" (XousString.as_str echo)) in
  let trimmed := trim input in
  if String.eqb trimmed "run" then cmd_run st our_secret_bytes peer_secret_bytes
  else if String.eqb trimmed "clear" then
    add_message (clear_history st) "Screen cleared"
  else add_message st "Type 'run' to test ECDH".

End Ecdh.

(** ** [EcdhTestUi::redraw] *)

Definition margin : Z := 4.
Definition line_height : Z := 16.

(** The loop [for msg in self.history.iter().rev()], from the current
    baseline [y]; [sx] is [self.screensize.x]. *)
Fixpoint post_lines (sx y : Z) (msgs : list string) : list DrawCmd :=
  match msgs with
  | [] => []
  | msg :: rest =>
      match XousString.as_str msg with
      | Some msg_str =>
          PostTextView (mkPoint margin (y - line_height)) (mkPoint (sx - margin) y) msg_str
          :: (let y := (y - line_height)%Z in
              if (y <? 0)%Z then [] else post_lines sx y rest)
      | None => post_lines sx y rest
      end
  end.

Definition redraw (st : EcdhTestUi) : EcdhTestUi :=
  let sz := screensize st in
  let st := post st [DrawRectangle (mkPoint 0 0) sz] in
  let st := post st (post_lines (px sz) (py sz - margin)%Z (rev (history st))) in
  post st [GamRedraw].

(** The text bounding boxes a drawing trace contains. *)
Definition text_boxes (cmds : list DrawCmd) : list (Point * Point * string) :=
  flat_map (fun c => match c with
                     | PostTextView tl br t => [(tl, br, t)]
                     | _ => []
                     end) cmds.

(** ** The event loop of [main] *)

(** [EcdhTestOp] with the payload of a [Line] message ([Quit] leaves the
    loop and has no successor state). *)
Inductive EcdhTestOp :=
| Redraw
| Line (input : string) (our_secret_bytes peer_secret_bytes : list Byte.byte)
| ChangeFocus.

Section Loop.
Variable x25519_public : list Byte.byte -> list Byte.byte.
Variable x25519_dh : list Byte.byte -> list Byte.byte -> list Byte.byte.

Definition step (st : EcdhTestUi) (op : EcdhTestOp) : EcdhTestUi :=
  match op with
  | Redraw => redraw st
  | Line input a b =>
      redraw (handle_input x25519_public x25519_dh
                (info st ("Received input: " ++ input)) input a b)
  | ChangeFocus => st
  end.

(** The state after [EcdhTestUi::new] and the start-up messages. *)
Definition init (sz : Point) : EcdhTestUi :=
  let st := mkUi [] sz [] ["ECDH Test App starting..."] in
  let st := add_message st "ECDH Test App v0.1.0" in
  let st := add_message st "Type 'help' for commands" in
  info (redraw st) "ECDH Test App ready, entering main loop".

Definition run_loop (sz : Point) (ops : list EcdhTestOp) : EcdhTestUi :=
  fold_left step ops (init sz).

End Loop.

(** ** The dispatch of [main] on the message id *)

(** [EcdhTestOp] as numbered by [#[derive(ToPrimitive, FromPrimitive)]]. *)
Inductive EcdhTestOpCode :=
| OpRedraw
| OpLine
| OpChangeFocus
| OpQuit.


(** [num_traits::FromPrimitive::from_usize(msg.body.id())]. *)
Definition from_usize (n : nat) : option EcdhTestOpCode :=
  match n with
  | 0 => Some OpRedraw
  | 1 => Some OpLine
  | 2 => Some OpChangeFocus
  | 3 => Some OpQuit
  | _ => None
  end.

(** The decimal digits of [n], least significant first ([Display] of a
    [usize]). *)
Fixpoint decimal_rev (fuel n : nat) : list ascii :=
  match fuel with
  | 0 => []
  | S f => ascii_of_nat (48 + n mod 10)
             :: (if Nat.ltb n 10 then [] else decimal_rev f (n / 10))
  end.

Definition decimal (n : nat) : string :=
  string_of_list_ascii (rev (decimal_rev (S n) n)).

(** A message received by [xous::receive_message(sid)]: its id and, for a
    [Line], the flattened [String] it carries; [line_our] and [line_peer]
    are the two TRNG draws [cmd_run] would make while it is handled. *)
Record Message := mkMessage {
  body_id : nat;
  body_line : string;
  line_our : list Byte.byte;
  line_peer : list Byte.byte
}.

Section Main.
Variable x25519_public : list Byte.byte -> list Byte.byte.
Variable x25519_dh : list Byte.byte -> list Byte.byte -> list Byte.byte.

(** One round of the [loop] of [main]; [None] is the [break] of [Quit]. *)
Definition dispatch (st : EcdhTestUi) (m : Message) : option EcdhTestUi :=
  match from_usize (body_id m) with
  | Some OpRedraw => Some (step x25519_public x25519_dh st Redraw)
  | Some OpLine =>
      Some (step x25519_public x25519_dh st
              (Line (body_line m) (line_our m) (line_peer m)))
  | Some OpChangeFocus => Some (step x25519_public x25519_dh st ChangeFocus)
  | Some OpQuit => None
  | None => Some (info st ("Unknown opcode: " ++ decimal (body_id m)))
  end.

(** The loop over the messages received; the flag tells whether [Quit]
    ended it (then the exit lines are logged and [terminate_process(0)]
    follows). *)
Fixpoint serve (st : EcdhTestUi) (msgs : list Message) : EcdhTestUi * bool :=
  match msgs with
  | [] => (st, false)
  | m :: ms =>
      match dispatch st m with
      | Some st' => serve st' ms
      | None => (info (info st "Quit requested, exiting") "ECDH Test App exiting", true)
      end
  end.

(** [main] after a successful registration. *)
Definition main_run (sz : Point) (msgs : list Message) : EcdhTestUi * bool :=
  serve (init sz) msgs.

End Main.

(** ** Definitions following the spec's words *)

(** [DiagnosticVerdict] and its status line (spec, 3 and 4.2). *)
Inductive DiagnosticVerdict :=
| MatchesRemotePublic
| MatchesLocalPublic
| Distinct.

Definition verdict_line (v : DiagnosticVerdict) : string :=
  match v with
  | MatchesRemotePublic => "BUG: shared == peer_pub!"
  | MatchesLocalPublic => "BUG: shared == our_pub!"
  | Distinct => "OK: shared != any pubkey"
  end.

(** Hex bytes rendered as two lowercase hex digits per byte separated by
    a single space, e.g. [de ad be ef ] (spec, 6). *)
Definition spec_hex_digit (d : nat) : ascii :=
  nth d (list_ascii_of_string "0123456789abcdef") "0"%char.

Definition spec_hex_byte (b : Byte.byte) : string :=
  String (spec_hex_digit (Byte.to_nat b / 16))
    (String (spec_hex_digit (Byte.to_nat b mod 16)) " ").

(** The unwrapped rendering of the on-screen summary. *)
Definition spec_hex_unwrapped (bs : list Byte.byte) : string :=
  String.concat "" (map spec_hex_byte bs).

Fixpoint chunks_fuel {A} (fuel n : nat) (l : list A) : list (list A) :=
  match fuel with
  | 0 => []
  | S f => match l with
           | [] => []
           | _ :: _ => firstn n l :: chunks_fuel f n (skipn n l)
           end
  end.

(** [l] cut into consecutive pieces of [n] elements (the last may be
    shorter). *)
Definition chunks {A} (n : nat) (l : list A) : list (list A) :=
  chunks_fuel (List.length l) n l.

(** The full-log rendering, "wrapped every 16 bytes": the unwrapped
    renderings of the 16-byte pieces, one per line. *)
Definition spec_hex_wrapped (bs : list Byte.byte) : string :=
  String.concat newline (map spec_hex_unwrapped (chunks 16 bs)).

(** ** Auxiliary definitions for the proofs *)

(** What the loop of [bytes_to_log_string] writes from index [i] on, when
    nothing is cut by the buffer's capacity. *)
Definition log_sep (i : nat) : string :=
  if Nat.ltb 0 i && Nat.eqb (i mod 16) 0 then newline else "".

Fixpoint log_render (i : nat) (bs : list Byte.byte) : string :=
  match bs with
  | [] => ""
  | b :: r => log_sep i ++ (fmt_02x b ++ " ") ++ log_render (S i) r
  end.

(** The eleven entries [cmd_run] appends, in order. *)
Definition run_messages (x25519_public : list Byte.byte -> list Byte.byte)
    (x25519_dh : list Byte.byte -> list Byte.byte -> list Byte.byte)
    (our_secret_bytes peer_secret_bytes : list Byte.byte) : list string :=
  let our_public := x25519_public our_secret_bytes in
  let peer_public := x25519_public peer_secret_bytes in
  let shared_secret := x25519_dh our_secret_bytes peer_public in
  [ "=== ECDH TEST ==="; "1. Generating our keypair...";
    hex_message "Our priv: " our_secret_bytes; hex_message "Our pub:  " our_public;
    "2. Generating peer keypair..."; hex_message "Peer pub: " peer_public;
    "3. Computing ECDH..."; hex_message "Shared:   " shared_secret;
    "4. Checking results...";
    (if bytes_eqb shared_secret peer_public then "BUG: shared == peer_pub!"
     else if bytes_eqb shared_secret our_public then "BUG: shared == our_pub!"
     else "OK: shared != any pubkey");
    "=== TEST COMPLETE ===" ].

(** The 21 entries of the FIFO scenario of the spec. *)
Definition msgs21 : list string :=
  ["msg0"; "msg1"; "msg2"; "msg3"; "msg4"; "msg5"; "msg6"; "msg7"; "msg8";
   "msg9"; "msg10"; "msg11"; "msg12"; "msg13"; "msg14"; "msg15"; "msg16";
   "msg17"; "msg18"; "msg19"; "msg20"].

(** The text of a text bounding box. *)
Definition box_text (bx : Point * Point * string) : string :=
  let '(_, _, t) := bx in t.

(** ASCII whitespace bytes (tab, line feed, vertical tab, form feed,
    carriage return, space). *)
Definition is_ascii_space (c : ascii) : bool :=
  existsb (Nat.eqb (nat_of_ascii c)) [9; 10; 11; 12; 13; 32].

(** Printable ASCII other than the space. *)
Definition is_graphic (c : ascii) : bool :=
  Nat.leb 33 (nat_of_ascii c) && Nat.leb (nat_of_ascii c) 126.

(** The first byte of a byte list is a graphic ASCII character. *)
Definition starts_graphic (l : list ascii) : bool :=
  match l with c :: _ => is_graphic c | [] => false end.

(** The byte sequence [p] does not start with the byte [c]. *)
Definition head_differs (c : ascii) (p : list ascii) : bool :=
  match p with d :: _ => negb (Ascii.eqb d c) | [] => false end.

(** The value of a lowercase hex digit. *)
Definition hex_val (c : ascii) : nat :=
  let n := nat_of_ascii c in if Nat.leb 97 n then n - 87 else n - 48.

(** Reads back the byte of a two-digit hex rendering. *)
Definition unhex_byte (s : string) : option Byte.byte :=
  match s with
  | String c1 (String c2 _) => Byte.of_nat (16 * hex_val c1 + hex_val c2)
  | _ => None
  end.

(** * Proofs *)

(** ** Strings and bounded buffers *)

Lemma list_ascii_of_string_app (a b : string) :
  list_ascii_of_string (a ++ b) = (list_ascii_of_string a ++ list_ascii_of_string b)%list.
Proof. induction a as [|c a IH]; simpl; [reflexivity | now rewrite IH]. Qed.

Lemma length_list_ascii_of_string (s : string) :
  List.length (list_ascii_of_string s) = String.length s.
Proof. induction s as [|c s IH]; simpl; [reflexivity | now rewrite IH]. Qed.

Lemma string_length_app (a b : string) :
  String.length (a ++ b) = String.length a + String.length b.
Proof. induction a as [|c a IH]; simpl; [reflexivity | now rewrite IH]. Qed.

Lemma XousString_truncate_length (cap : nat) (s : string) :
  String.length (XousString.truncate cap s) <= cap.
Proof.
  unfold XousString.truncate. rewrite <- length_list_ascii_of_string,
    list_ascii_of_string_of_list_ascii, length_firstn. lia.
Qed.

Lemma XousString_truncate_short (cap : nat) (s : string) :
  String.length s <= cap -> XousString.truncate cap s = s.
Proof.
  intros H. unfold XousString.truncate. rewrite firstn_all2.
  - apply string_of_list_ascii_of_string.
  - now rewrite length_list_ascii_of_string.
Qed.

Lemma XousString_truncate_idem (cap : nat) (s : string) :
  XousString.truncate cap (XousString.truncate cap s) = XousString.truncate cap s.
Proof. apply XousString_truncate_short, XousString_truncate_length. Qed.

Lemma XousString_write_fits (cap : nat) (buf t : string) :
  String.length buf + String.length t <= cap -> XousString.write cap buf t = buf ++ t.
Proof. intros H. apply XousString_truncate_short. now rewrite string_length_app. Qed.

(** ** The message log *)

Lemma history_add_message (st : EcdhTestUi) (m : string) :
  history (add_message st m) = history_push (history st) m.
Proof. reflexivity. Qed.

Lemma history_info (st : EcdhTestUi) (l : string) :
  history (info st l) = history st.
Proof. reflexivity. Qed.

Lemma history_push_spec (h : list string) (m : string) :
  List.length h <= MAX_HISTORY ->
  history_push h m = (skipn (List.length h + 1 - MAX_HISTORY) h ++ [log_entry m])%list.
Proof.
  unfold history_push, HVec.push, HVec.remove0, MAX_HISTORY, log_entry,
    XousString.write. simpl String.append. intros Hle.
  destruct (Nat.leb 20 (List.length h)) eqn:E.
  - apply Nat.leb_le in E. replace (List.length h + 1 - 20) with 1 by lia.
    destruct h as [|x t]; simpl in *; [lia|].
    replace (Nat.ltb (List.length t) 20) with true by (symmetry; apply Nat.ltb_lt; lia).
    reflexivity.
  - apply Nat.leb_gt in E.
    replace (Nat.ltb (List.length h) 20) with true by (symmetry; apply Nat.ltb_lt; lia).
    replace (List.length h + 1 - 20) with 0 by lia. reflexivity.
Qed.

Lemma length_history_push (h : list string) (m : string) :
  List.length h <= MAX_HISTORY -> List.length (history_push h m) <= MAX_HISTORY.
Proof.
  intros Hle. rewrite history_push_spec by exact Hle.
  rewrite length_app, length_skipn. simpl. unfold MAX_HISTORY in *. lia.
Qed.

Lemma history_fold (xs h : list string) :
  List.length h <= MAX_HISTORY ->
  fold_left history_push xs h =
  skipn (List.length h + List.length xs - MAX_HISTORY) (h ++ map log_entry xs).
Proof.
  revert h. induction xs as [|x xs IH]; intros h Hle; simpl.
  - rewrite app_nil_r, Nat.add_0_r. replace (List.length h - MAX_HISTORY) with 0
      by (unfold MAX_HISTORY in *; lia). reflexivity.
  - rewrite IH by (apply length_history_push; exact Hle).
    rewrite history_push_spec by exact Hle.
    rewrite <- app_assoc. simpl.
    rewrite length_app, length_skipn. simpl.
    assert (Hb : forall l : list string,
      (skipn (List.length h + 1 - MAX_HISTORY) h ++ l)%list =
      skipn (List.length h + 1 - MAX_HISTORY) (h ++ l)).
    { intro l. rewrite skipn_app.
      replace (List.length h + 1 - MAX_HISTORY - List.length h) with 0
        by (unfold MAX_HISTORY in *; lia). reflexivity. }
    rewrite Hb, skipn_skipn. f_equal. unfold MAX_HISTORY in *. lia.
Qed.

Lemma history_fold_add_message (xs : list string) (st : EcdhTestUi) :
  history (fold_left add_message xs st) = fold_left history_push xs (history st).
Proof.
  revert st. induction xs as [|x xs IH]; intros st; simpl; [reflexivity|].
  rewrite IH. reflexivity.
Qed.

(** C2: appending to an empty log keeps all entries up to 20 appends;
    beyond, the log holds the last 20 entries in order, the oldest being
    the (count-19)th appended one; appending "msg0".."msg20" leaves
    "msg1".."msg20" and evicts "msg0". *)
Theorem add_message_fifo (sz : Point) (g : list DrawCmd) (l xs : list string) :
  let h := history (fold_left add_message xs (mkUi [] sz g l)) in
  (List.length xs <= MAX_HISTORY -> List.length h = List.length xs) /\
  (MAX_HISTORY < List.length xs ->
     List.length h = MAX_HISTORY /\
     h = map log_entry (skipn (List.length xs - MAX_HISTORY) xs) /\
     hd_error h = Some (log_entry (nth (List.length xs - MAX_HISTORY) xs ""))) /\
  (history (fold_left add_message msgs21 (mkUi [] sz g l)) = tl msgs21 /\
   ~ In "msg0" (history (fold_left add_message msgs21 (mkUi [] sz g l)))).
Proof.
  assert (Hh : forall ys, history (fold_left add_message ys (mkUi [] sz g l)) =
                          map log_entry (skipn (List.length ys - MAX_HISTORY) ys)).
  { intro ys. rewrite history_fold_add_message, history_fold
      by (cbn [history List.length]; unfold MAX_HISTORY; lia).
    cbn [history List.length app]. rewrite skipn_map. reflexivity. }
  cbv zeta. rewrite !Hh. split; [|split].
  - intros Hle. rewrite length_map, length_skipn. unfold MAX_HISTORY in *. lia.
  - intros Hlt. split; [|split].
    + rewrite length_map, length_skipn. unfold MAX_HISTORY in *. lia.
    + reflexivity.
    + rewrite <- skipn_map, hd_error_skipn, nth_error_map.
      rewrite (nth_error_nth' xs "")
        by (unfold MAX_HISTORY in *; lia). reflexivity.
  - split; vm_compute; [reflexivity|].
    intros H. repeat (destruct H as [H|H]; [discriminate H|]). exact H.
Qed.

(** C2 witness. *)
Lemma add_message_fifo_witness :
  List.length (history (fold_left add_message msgs21 (mkUi [] (mkPoint 100 100) [] []))) = 20.
Proof.
  destruct (add_message_fifo (mkPoint 100 100) [] [] msgs21) as [_ [H _]].
  destruct H as [H _]; [vm_compute; lia|]. exact H.
Defined.

Lemma log_entry_prefix (msg : string) :
  exists rest, msg = log_entry msg ++ rest.
Proof.
  exists (string_of_list_ascii (skipn 512 (list_ascii_of_string msg))).
  unfold log_entry, XousString.truncate.
  rewrite <- (string_of_list_ascii_of_string msg) at 1.
  rewrite <- (firstn_skipn 512 (list_ascii_of_string msg)) at 1.
  generalize (firstn 512 (list_ascii_of_string msg)),
    (skipn 512 (list_ascii_of_string msg)).
  intros p q. induction p as [|c p IH]; simpl; [reflexivity | now rewrite IH].
Qed.

(** C7: appending a message of any length stores its first 512 bytes as
    the new entry and leaves every other entry as it was: the new log is
    the old one (without its oldest entry when it was already full)
    followed by the new entry. *)
Theorem add_message_keeps_entries (st : EcdhTestUi) (msg : string) :
  List.length (history st) <= MAX_HISTORY ->
  history (add_message st msg) =
    (skipn (List.length (history st) + 1 - MAX_HISTORY) (history st)
       ++ [log_entry msg])%list /\
  (List.length (history st) < MAX_HISTORY ->
     history (add_message st msg) = (history st ++ [log_entry msg])%list) /\
  String.length (log_entry msg) <= 512 /\
  (exists rest, msg = log_entry msg ++ rest) /\
  (String.length msg <= 512 -> log_entry msg = msg).
Proof.
  intros Hle. rewrite history_add_message, history_push_spec by exact Hle.
  split; [reflexivity|]. split; [|split; [|split]].
  - intros Hlt. replace (List.length (history st) + 1 - MAX_HISTORY) with 0
      by (unfold MAX_HISTORY in *; lia). reflexivity.
  - apply XousString_truncate_length.
  - apply log_entry_prefix.
  - apply XousString_truncate_short.
Qed.

(** C7 witness. *)
Lemma add_message_keeps_entries_witness :
  history (add_message (mkUi ["a"; "b"] (mkPoint 100 100) [] []) "c") = ["a"; "b"; "c"].
Proof.
  destruct (add_message_keeps_entries (mkUi ["a"; "b"] (mkPoint 100 100) [] []) "c")
    as [_ [H _]]; [vm_compute; lia|].
  rewrite H by (vm_compute; lia). vm_compute. reflexivity.
Defined.

(** ** Command dispatch *)

Lemma handle_input_echo pub dh st input a b :
  handle_input pub dh st input a b =
  (let st1 := add_message st (">" ++ input) in
   if String.eqb (trim input) "run" then cmd_run pub dh st1 a b
   else if String.eqb (trim input) "clear" then
     add_message (clear_history st1) "Screen cleared"
   else add_message st1 "Type 'run' to test ECDH").
Proof.
  assert (E : add_message st (XousString.unwrap_or ""
                (XousString.as_str (XousString.write 512 "" (">" ++ input))))
              = add_message st (">" ++ input)).
  { unfold add_message, history_push, XousString.unwrap_or, XousString.as_str,
      XousString.write. cbn [String.append]. rewrite XousString_truncate_idem.
    reflexivity. }
  unfold handle_input. rewrite E. reflexivity.
Qed.

Lemma cmd_run_history pub dh st a b :
  history (cmd_run pub dh st a b) =
  fold_left history_push (run_messages pub dh a b) (history st).
Proof.
  unfold cmd_run, run_messages. cbv zeta. cbn [fold_left].
  destruct (bytes_eqb _ (pub b)); [|destruct (bytes_eqb _ (pub a))];
    repeat rewrite ?history_add_message, ?history_info; reflexivity.
Qed.

Lemma length_fold_history_push (xs h : list string) :
  List.length h <= MAX_HISTORY ->
  List.length (fold_left history_push xs h) <= MAX_HISTORY.
Proof.
  revert h. induction xs as [|x xs IH]; intros h Hle; simpl; [exact Hle|].
  apply IH, length_history_push, Hle.
Qed.

Lemma length_handle_input pub dh st input a b :
  List.length (history st) <= MAX_HISTORY ->
  List.length (history (handle_input pub dh st input a b)) <= MAX_HISTORY.
Proof.
  intros Hle. rewrite handle_input_echo. cbv zeta.
  assert (H1 : List.length (history (add_message st (">" ++ input))) <= MAX_HISTORY)
    by (apply length_history_push, Hle).
  destruct (String.eqb (trim input) "run").
  - rewrite cmd_run_history. apply length_fold_history_push, H1.
  - destruct (String.eqb (trim input) "clear");
      apply length_history_push; [simpl; unfold MAX_HISTORY; lia | exact H1].
Qed.

(** ** Redraw *)

Lemma history_redraw (st : EcdhTestUi) : history (redraw st) = history st.
Proof. reflexivity. Qed.

Lemma history_step pub dh st op :
  List.length (history st) <= MAX_HISTORY ->
  List.length (history (step pub dh st op)) <= MAX_HISTORY.
Proof.
  intros Hle. destruct op as [|input a b|]; unfold step; [exact Hle| |exact Hle].
  rewrite history_redraw. apply length_handle_input. exact Hle.
Qed.

Lemma length_history_run_loop pub dh sz ops :
  List.length (history (run_loop pub dh sz ops)) <= MAX_HISTORY.
Proof.
  unfold run_loop.
  assert (H0 : List.length (history (init sz)) <= MAX_HISTORY)
    by (vm_compute; lia).
  revert H0. generalize (init sz). induction ops as [|op ops IH]; intros st Hst;
    simpl; [exact Hst|].
  apply IH, history_step, Hst.
Qed.

(** C8: the log never holds more than 20 entries: the empty log and the
    start-up state satisfy the bound, append keeps it (evicting the
    oldest entry of a full log before inserting), clear empties the log,
    every dispatch keeps it, and so does every run of the event loop. *)
Theorem history_bounded :
  (forall sz g l, List.length (history (mkUi [] sz g l)) <= MAX_HISTORY) /\
  (forall sz, List.length (history (init sz)) <= MAX_HISTORY) /\
  (forall st m, List.length (history st) <= MAX_HISTORY ->
     List.length (history (add_message st m)) <= MAX_HISTORY) /\
  (forall st m, List.length (history st) = MAX_HISTORY ->
     history (add_message st m) = (tl (history st) ++ [log_entry m])%list) /\
  (forall st, List.length (history (clear_history st)) = 0) /\
  (forall pub dh st input a b, List.length (history st) <= MAX_HISTORY ->
     List.length (history (handle_input pub dh st input a b)) <= MAX_HISTORY) /\
  (forall pub dh sz ops, List.length (history (run_loop pub dh sz ops)) <= MAX_HISTORY).
Proof.
  split; [intros; simpl; unfold MAX_HISTORY; lia|].
  split; [intros; vm_compute; lia|].
  split; [intros st m; apply length_history_push|].
  split.
  { intros st m Heq. rewrite history_add_message, history_push_spec by lia.
    rewrite Heq. replace (MAX_HISTORY + 1 - MAX_HISTORY) with 1 by lia.
    destruct (history st); reflexivity. }
  split; [reflexivity|].
  split; [apply length_handle_input|].
  apply length_history_run_loop.
Qed.

(** C8 witness. *)
Lemma history_bounded_witness :
  List.length (history (handle_input (fun s => s) (fun s p => p)
     (mkUi (tl msgs21) (mkPoint 100 100) [] []) "run" [Byte.x01] [Byte.x02])) <= 20 /\
  history (add_message (mkUi (tl msgs21) (mkPoint 100 100) [] []) "x")
    = (tl (tl msgs21) ++ [log_entry "x"])%list.
Proof.
  destruct history_bounded as [_ [_ [_ [H4 [_ [H6 _]]]]]]. split.
  - apply H6. vm_compute. lia.
  - apply (H4 (mkUi (tl msgs21) (mkPoint 100 100) [] []) "x"). vm_compute. reflexivity.
Defined.

(** C3: every dispatch first appends the echo ">" ++ input and only then
    handles the command; so "clear" on any log (e.g. of 5 entries) leaves
    exactly ["Screen cleared"]. *)
Theorem handle_input_echo_first pub dh :
  (forall st input a b,
     handle_input pub dh st input a b =
     (let st1 := add_message st (">" ++ input) in
      if String.eqb (trim input) "run" then cmd_run pub dh st1 a b
      else if String.eqb (trim input) "clear" then
        add_message (clear_history st1) "Screen cleared"
      else add_message st1 "Type 'run' to test ECDH")) /\
  (forall st input a b, trim input = "clear" ->
     history (handle_input pub dh st input a b) = ["Screen cleared"]) /\
  (forall sz g l a b,
     history (handle_input pub dh (mkUi ["m1"; "m2"; "m3"; "m4"; "m5"] sz g l) "clear" a b)
     = ["Screen cleared"]).
Proof.
  assert (Hclear : forall st input a b, trim input = "clear" ->
            history (handle_input pub dh st input a b) = ["Screen cleared"]).
  { intros st input a b H. rewrite handle_input_echo. cbv zeta. rewrite H.
    vm_compute. reflexivity. }
  split; [|split].
  - intros. apply handle_input_echo.
  - exact Hclear.
  - intros. apply Hclear. vm_compute. reflexivity.
Qed.

(** C3 witness. *)
Lemma handle_input_echo_first_witness :
  history (handle_input (fun s => s) (fun s p => p)
             (mkUi ["m1"; "m2"; "m3"; "m4"; "m5"] (mkPoint 100 100) [] [])
             " clear " [] []) = ["Screen cleared"].
Proof.
  destruct (handle_input_echo_first (fun s => s) (fun s p => p)) as [_ [H _]].
  apply H. vm_compute. reflexivity.
Defined.

(** C5: matching is exact and case-sensitive on the trimmed input: trimmed
    "run" runs the diagnostic, trimmed "clear" clears the log, anything
    else (for example "RUN") only appends the help entry after the echo. *)
Theorem handle_input_exact_match pub dh :
  (forall st input a b, trim input = "run" ->
     handle_input pub dh st input a b = cmd_run pub dh (add_message st (">" ++ input)) a b) /\
  (forall st input a b, trim input = "clear" ->
     handle_input pub dh st input a b =
     add_message (clear_history (add_message st (">" ++ input))) "Screen cleared") /\
  (forall st input a b, trim input <> "run" -> trim input <> "clear" ->
     handle_input pub dh st input a b =
     add_message (add_message st (">" ++ input)) "Type 'run' to test ECDH") /\
  (forall st a b,
     handle_input pub dh st "RUN" a b =
     add_message (add_message st ">RUN") "Type 'run' to test ECDH").
Proof.
  assert (Hdef : forall st input a b, trim input <> "run" -> trim input <> "clear" ->
     handle_input pub dh st input a b =
     add_message (add_message st (">" ++ input)) "Type 'run' to test ECDH").
  { intros st input a b H1 H2. rewrite handle_input_echo. cbv zeta.
    apply String.eqb_neq in H1, H2. rewrite H1, H2. reflexivity. }
  split; [|split; [|split]].
  - intros st input a b H. rewrite handle_input_echo. cbv zeta. rewrite H. reflexivity.
  - intros st input a b H. rewrite handle_input_echo. cbv zeta. rewrite H. reflexivity.
  - exact Hdef.
  - intros st a b. apply Hdef; vm_compute; discriminate.
Qed.

(** C5 witness. *)
Lemma handle_input_exact_match_witness :
  handle_input (fun s => s) (fun s p => p) (mkUi [] (mkPoint 100 100) [] []) (" run" ++ newline) [Byte.x01] [Byte.x02] =
  cmd_run (fun s => s) (fun s p => p)
    (add_message (mkUi [] (mkPoint 100 100) [] []) (">" ++ (" run" ++ newline))) [Byte.x01] [Byte.x02] /\
  handle_input (fun s => s) (fun s p => p) (mkUi [] (mkPoint 100 100) [] []) "runs" [] [] =
  add_message (add_message (mkUi [] (mkPoint 100 100) [] []) ">runs") "Type 'run' to test ECDH".
Proof.
  destruct (handle_input_exact_match (fun s => s) (fun s p => p)) as [H1 [_ [H3 _]]].
  split.
  - apply H1. vm_compute. reflexivity.
  - apply H3; vm_compute; discriminate.
Defined.

(** ** The diagnostic run *)

Lemma fold_history_push_suffix (xs h : list string) :
  List.length h <= MAX_HISTORY -> List.length xs <= MAX_HISTORY ->
  exists pre, fold_left history_push xs h = (pre ++ map log_entry xs)%list.
Proof.
  intros Hh Hx. rewrite history_fold by exact Hh.
  exists (skipn (List.length h + List.length xs - MAX_HISTORY) h).
  rewrite skipn_app.
  replace (List.length h + List.length xs - MAX_HISTORY - List.length h) with 0
    by (unfold MAX_HISTORY in *; lia). reflexivity.
Qed.

Lemma fold_left_cons (l h : list string) (x : string) :
  fold_left history_push (x :: l) h = fold_left history_push l (history_push h x).
Proof. reflexivity. Qed.

Lemma handle_run_history pub dh st input a b :
  trim input = "run" ->
  history (handle_input pub dh st input a b) =
  fold_left history_push ((">" ++ input) :: run_messages pub dh a b) (history st).
Proof.
  intros H. rewrite handle_input_echo. cbv zeta. rewrite H, String.eqb_refl.
  cbv iota. rewrite cmd_run_history, history_add_message, fold_left_cons.
  reflexivity.
Qed.

Lemma bytes_eqb_eq (x y : list Byte.byte) : bytes_eqb x y = true <-> x = y.
Proof.
  unfold bytes_eqb. destruct (list_eq_dec Byte.byte_eq_dec x y); split;
    congruence.
Qed.

Lemma bytes_eqb_neq (x y : list Byte.byte) : bytes_eqb x y = false <-> x <> y.
Proof.
  unfold bytes_eqb. destruct (list_eq_dec Byte.byte_eq_dec x y); split;
    congruence.
Qed.

(** C10: dispatching trimmed "run" appends exactly 12 entries (the echo,
    then the eleven trace entries from "=== ECDH TEST ===" to
    "=== TEST COMPLETE ==="); on a full log the 12 oldest entries go. *)
Theorem run_appends_twelve pub dh st input a b :
  trim input = "run" -> List.length (history st) <= MAX_HISTORY ->
  exists entries,
    List.length entries = 12 /\
    nth_error entries 0 = Some (log_entry (">" ++ input)) /\
    nth_error entries 1 = Some "=== ECDH TEST ===" /\
    nth_error entries 11 = Some "=== TEST COMPLETE ===" /\
    history (handle_input pub dh st input a b) =
      skipn (List.length (history st) + 12 - MAX_HISTORY) (history st ++ entries) /\
    (List.length (history st) = MAX_HISTORY ->
       history (handle_input pub dh st input a b) = (skipn 12 (history st) ++ entries)%list).
Proof.
  intros Hrun Hle.
  assert (Hh : history (handle_input pub dh st input a b) =
    skipn (List.length (history st) + 12 - MAX_HISTORY)
      (history st ++ map log_entry ((">" ++ input) :: run_messages pub dh a b))).
  { rewrite handle_run_history by exact Hrun. rewrite history_fold by exact Hle.
    reflexivity. }
  exists (map log_entry ((">" ++ input) :: run_messages pub dh a b)).
  split; [reflexivity|]. split; [reflexivity|].
  split; [reflexivity|]. split; [reflexivity|]. split; [exact Hh|].
  intros Hfull. rewrite Hh, Hfull, skipn_app, Hfull.
  replace (MAX_HISTORY + 12 - MAX_HISTORY) with 12 by lia. reflexivity.
Qed.

(** C10 witness. *)
Lemma run_appends_twelve_witness :
  List.length (history (handle_input (fun s => s) (fun s p => p)
    (mkUi [] (mkPoint 100 100) [] []) "run" [Byte.x01] [Byte.x02])) = 12.
Proof.
  destruct (run_appends_twelve (fun s => s) (fun s p => p)
    (mkUi [] (mkPoint 100 100) [] []) "run" [Byte.x01] [Byte.x02])
    as [e [He [_ [_ [_ [H _]]]]]]; [vm_compute; reflexivity | vm_compute; lia |].
  rewrite H. simpl. rewrite He. reflexivity.
Defined.

(** C4: the status line of a run (the entry before the closing footer)
    is exactly one of the three verdict lines, chosen in priority order:
    shared == peer public key, else shared == our public key, else
    distinct. *)
Theorem cmd_run_verdict pub dh st a b :
  List.length (history st) <= MAX_HISTORY ->
  let our_public := pub a in
  let peer_public := pub b in
  let shared := dh a peer_public in
  let status := nth_error (rev (history (cmd_run pub dh st a b))) 1 in
  (shared = peer_public -> status = Some (verdict_line MatchesRemotePublic)) /\
  (shared <> peer_public -> shared = our_public ->
     status = Some (verdict_line MatchesLocalPublic)) /\
  (shared <> peer_public -> shared <> our_public ->
     status = Some (verdict_line Distinct)) /\
  (exists v, status = Some (verdict_line v) /\
     forall v', status = Some (verdict_line v') -> v' = v).
Proof.
  intros Hle. cbv zeta.
  assert (Hs : nth_error (rev (history (cmd_run pub dh st a b))) 1 =
    Some (log_entry
      (if bytes_eqb (dh a (pub b)) (pub b) then "BUG: shared == peer_pub!"
       else if bytes_eqb (dh a (pub b)) (pub a) then "BUG: shared == our_pub!"
       else "OK: shared != any pubkey"))).
  { rewrite cmd_run_history.
    destruct (fold_history_push_suffix (run_messages pub dh a b) (history st))
      as [pre Hpre]; [exact Hle | apply Nat.leb_le; reflexivity |].
    rewrite Hpre, rev_app_distr, nth_error_app1 by (rewrite length_rev; apply Nat.ltb_lt; reflexivity).
    reflexivity. }
  rewrite Hs.
  assert (Hu : forall v w, Some (verdict_line w) = Some (verdict_line v) -> v = w).
  { intros v w H. destruct v, w; vm_compute in H; congruence. }
  destruct (bytes_eqb (dh a (pub b)) (pub b)) eqn:E1;
  [|destruct (bytes_eqb (dh a (pub b)) (pub a)) eqn:E2];
  [apply bytes_eqb_eq in E1 | apply bytes_eqb_neq in E1; apply bytes_eqb_eq in E2
  | apply bytes_eqb_neq in E1; apply bytes_eqb_neq in E2].
  - split; [reflexivity|]. split; [intros C; contradiction|].
    split; [intros C; contradiction|].
    exists MatchesRemotePublic. split; [reflexivity|]. intros v' H. apply Hu, H.
  - split; [intros C; contradiction|]. split; [reflexivity|].
    split; [intros _ C; contradiction|].
    exists MatchesLocalPublic. split; [reflexivity|]. intros v' H. apply Hu, H.
  - split; [intros C; contradiction|]. split; [intros _ C; contradiction|].
    split; [reflexivity|].
    exists Distinct. split; [reflexivity|]. intros v' H. apply Hu, H.
Qed.

(** C4 witness: a broken primitive returning the peer's public key. *)
Lemma cmd_run_verdict_witness :
  nth_error (rev (history (cmd_run (fun s => s) (fun s p => p)
    (mkUi [] (mkPoint 100 100) [] []) [Byte.x01] [Byte.x02]))) 1
  = Some "BUG: shared == peer_pub!".
Proof.
  destruct (cmd_run_verdict (fun s => s) (fun s p => p)
    (mkUi [] (mkPoint 100 100) [] []) [Byte.x01] [Byte.x02]) as [H _];
    [vm_compute; lia |].
  exact (H eq_refl).
Defined.

(** ** Redraw *)

Lemma text_boxes_app (c1 c2 : list DrawCmd) :
  text_boxes (c1 ++ c2) = (text_boxes c1 ++ text_boxes c2)%list.
Proof. unfold text_boxes. apply flat_map_app. Qed.

Lemma post_lines_newest_first (sx y : Z) (msgs : list string) :
  exists k, map box_text (text_boxes (post_lines sx y msgs)) = firstn k msgs.
Proof.
  revert y. induction msgs as [|m rest IH]; intros y.
  - exists 0. reflexivity.
  - cbn [post_lines XousString.as_str].
    destruct (y - line_height <? 0)%Z.
    + exists 1. reflexivity.
    + destruct (IH (y - line_height)%Z) as [k Hk]. exists (S k).
      change (text_boxes (?c :: ?l)) with (text_boxes [c] ++ text_boxes l)%list.
      rewrite map_app, Hk. reflexivity.
Qed.

(** C9: redraw leaves the log (contents, order, length) and the screen
    size as they were; it only sends drawing commands, the same ones on a
    repeated redraw, whose texts are the newest entries, newest first; an
    empty log gets no text line. *)
Theorem redraw_read_only (st : EcdhTestUi) :
  history (redraw st) = history st /\
  screensize (redraw st) = screensize st /\
  (exists cmds k,
     gam_out (redraw st) = (gam_out st ++ cmds)%list /\
     gam_out (redraw (redraw st)) = (gam_out st ++ cmds ++ cmds)%list /\
     map box_text (text_boxes cmds) = firstn k (rev (history st))) /\
  (history st = [] ->
     gam_out (redraw st) =
     (gam_out st ++ [DrawRectangle (mkPoint 0 0) (screensize st); GamRedraw])%list).
Proof.
  split; [reflexivity|]. split; [reflexivity|]. split.
  - set (pl := post_lines (px (screensize st)) (py (screensize st) - margin)%Z
                 (rev (history st))).
    destruct (post_lines_newest_first (px (screensize st))
                (py (screensize st) - margin)%Z (rev (history st))) as [k Hk].
    exists ([DrawRectangle (mkPoint 0 0) (screensize st)] ++ pl ++ [GamRedraw])%list, k.
    split; [|split].
    + unfold redraw, post. cbn [gam_out history screensize].
      rewrite <- !app_assoc. reflexivity.
    + unfold redraw, post. cbn [gam_out history screensize].
      rewrite <- !app_assoc. reflexivity.
    + rewrite !text_boxes_app, !map_app. cbn [text_boxes flat_map map app].
      rewrite app_nil_r. exact Hk.
  - intros H. unfold redraw, post. cbn [gam_out history screensize].
    rewrite H. cbn [rev post_lines]. rewrite <- !app_assoc. reflexivity.
Qed.

(** C9 witness. *)
Lemma redraw_read_only_witness :
  gam_out (redraw (mkUi [] (mkPoint 100 100) [] [])) =
  [DrawRectangle (mkPoint 0 0) (mkPoint 100 100); GamRedraw].
Proof.
  destruct (redraw_read_only (mkUi [] (mkPoint 100 100) [] [])) as [_ [_ [_ H]]].
  exact (H eq_refl).
Defined.

(** C1 (code bug): on a canvas of height 100 with a log of at least 7
    entries, redraw posts 7 text boxes, and the 7th (the oldest shown) has
    its top at -16.  The loop tests [y < 0] after moving the baseline up,
    i.e. the bottom edge of the next box, not its top edge
    [y - line_height]. *)
Theorem redraw_emits_negative_top (h : list string) (sx : Z) (l : list string) :
  7 <= List.length h ->
  let boxes := text_boxes (gam_out (redraw (mkUi h (mkPoint sx 100) [] l))) in
  List.length boxes = 7 /\
  map (fun bx => let '(tl, _, _) := bx in py tl) boxes = [80; 64; 48; 32; 16; 0; -16]%Z /\
  exists t, In (mkPoint 4 (-16), mkPoint (sx - 4) 0, t) boxes.
Proof.
  intros Hlen. cbv zeta.
  assert (Hr : 7 <= List.length (rev h)) by (rewrite length_rev; exact Hlen).
  unfold redraw, post. cbn [gam_out history screensize px py].
  destruct (rev h) as [|e1 [|e2 [|e3 [|e4 [|e5 [|e6 [|e7 rest]]]]]]];
    cbn [List.length] in Hr; try lia.
  vm_compute. split; [reflexivity|]. split; [reflexivity|].
  exists e7. right; right; right; right; right; right; left. reflexivity.
Qed.

(** C1 witness. *)
Lemma redraw_emits_negative_top_witness :
  exists t, In (mkPoint 4 (-16), mkPoint 96 0, t)
    (text_boxes (gam_out (redraw (mkUi ["e1"; "e2"; "e3"; "e4"; "e5"; "e6"; "e7"]
                                      (mkPoint 100 100) [] [])))).
Proof.
  destruct (redraw_emits_negative_top ["e1"; "e2"; "e3"; "e4"; "e5"; "e6"; "e7"] 100 [])
    as [_ [_ H]]; [vm_compute; lia |].
  exact H.
Defined.

(** ** Hex formatting *)

Lemma string_app_assoc (a b c : string) : a ++ b ++ c = (a ++ b) ++ c.
Proof. induction a as [|x a IH]; simpl; [reflexivity | now rewrite IH]. Qed.

Lemma string_app_nil_r (a : string) : a ++ "" = a.
Proof. induction a as [|x a IH]; simpl; [reflexivity | now rewrite IH]. Qed.

Lemma concat_empty_cons (x : string) (l : list string) :
  String.concat "" (x :: l) = x ++ String.concat "" l.
Proof. destruct l; simpl; [now rewrite string_app_nil_r | reflexivity]. Qed.

Lemma fmt_02x_spec (b : Byte.byte) : fmt_02x b ++ " " = spec_hex_byte b.
Proof. destruct b; reflexivity. Qed.

Lemma length_spec_hex_byte (b : Byte.byte) : String.length (spec_hex_byte b) = 3.
Proof. reflexivity. Qed.

Lemma length_spec_hex_unwrapped (bs : list Byte.byte) :
  String.length (spec_hex_unwrapped bs) = 3 * List.length bs.
Proof.
  unfold spec_hex_unwrapped. induction bs as [|b bs IH]; [reflexivity|].
  cbn [map]. rewrite concat_empty_cons, string_length_app, IH,
    length_spec_hex_byte. cbn [List.length]. lia.
Qed.

Lemma format_hex_fold (bs : list Byte.byte) (acc : string) :
  String.length acc + 3 * List.length bs <= 256 ->
  fold_left (fun result b => XousString.write 256 result (fmt_02x b ++ " ")) bs acc
  = acc ++ spec_hex_unwrapped bs.
Proof.
  revert acc. induction bs as [|b bs IH]; intros acc Hle.
  - cbn. symmetry. apply string_app_nil_r.
  - cbn [fold_left]. rewrite fmt_02x_spec.
    rewrite XousString_write_fits
      by (rewrite length_spec_hex_byte; cbn [List.length] in Hle; lia).
    rewrite IH by (rewrite string_length_app, length_spec_hex_byte;
                   cbn [List.length] in Hle; lia).
    unfold spec_hex_unwrapped. cbn [map]. rewrite concat_empty_cons.
    symmetry. apply string_app_assoc.
Qed.

Lemma length_log_sep (i : nat) : String.length (log_sep i) <= 1.
Proof. unfold log_sep. destruct (Nat.ltb 0 i && Nat.eqb (i mod 16) 0); simpl; lia. Qed.

Lemma log_fold (bs : list Byte.byte) (s : string) (i : nat) :
  String.length s + String.length (log_render i bs) <= 256 ->
  fold_left
    (fun '(s, i) b =>
       let s := if Nat.ltb 0 i && Nat.eqb (i mod 16) 0
                then XousString.write 256 s newline else s in
       (XousString.write 256 s (fmt_02x b ++ " "), S i))
    bs (s, i) = (s ++ log_render i bs, i + List.length bs).
Proof.
  revert s i. induction bs as [|b bs IH]; intros s i Hle.
  - cbn. rewrite string_app_nil_r, Nat.add_0_r. reflexivity.
  - cbn [fold_left log_render] in *. rewrite fmt_02x_spec in *.
    rewrite !string_length_app, length_spec_hex_byte in Hle.
    assert (Hs : (if Nat.ltb 0 i && Nat.eqb (i mod 16) 0
                  then XousString.write 256 s newline else s) = s ++ log_sep i).
    { unfold log_sep in *. destruct (Nat.ltb 0 i && Nat.eqb (i mod 16) 0).
      - apply XousString_write_fits. simpl in Hle |- *. lia.
      - symmetry. apply string_app_nil_r. }
    cbv zeta. rewrite Hs.
    rewrite XousString_write_fits
      by (rewrite string_length_app, length_spec_hex_byte; lia).
    rewrite IH by (rewrite !string_length_app, length_spec_hex_byte; lia).
    rewrite !string_app_assoc. f_equal. cbn [List.length]. lia.
Qed.
Lemma mod16_add (m k : nat) : k < 16 -> (16 * m + k) mod 16 = k.
Proof.
  intros H. rewrite Nat.mul_comm, Nat.add_comm, Nat.Div0.mod_add.
  apply Nat.mod_small. exact H.
Qed.

Lemma log_sep_bound (i : nat) :
  16 * String.length (log_sep i) + i mod 16 <= 1 + (i - 1) mod 16.
Proof.
  assert (Hi := Nat.div_mod_eq i 16).
  assert (Hr := Nat.mod_upper_bound i 16 ltac:(lia)).
  unfold log_sep, newline.
  remember (i / 16) as q eqn:Eq. remember (i mod 16) as r eqn:Er.
  clear Eq Er. subst i.
  destruct r as [|r'].
  - destruct q as [|q']; [simpl; lia|].
    replace (16 * S q' + 0 - 1) with (16 * q' + 15) by lia.
    rewrite mod16_add by lia.
    replace (Nat.ltb 0 (16 * S q' + 0)) with true by (symmetry; apply Nat.ltb_lt; lia).
    simpl. lia.
  - replace (16 * q + S r' - 1) with (16 * q + r') by lia.
    rewrite mod16_add by lia. rewrite andb_false_r. simpl. lia.
Qed.

Lemma log_render_length (i : nat) (bs : list Byte.byte) :
  16 * String.length (log_render i bs) <= 49 * List.length bs + (i - 1) mod 16.
Proof.
  revert i. induction bs as [|b bs IH]; intros i; [simpl; lia|].
  cbn [log_render List.length]. rewrite fmt_02x_spec, !string_length_app,
    length_spec_hex_byte.
  specialize (IH (S i)). replace (S i - 1) with i in IH by lia.
  pose proof (log_sep_bound i). lia.
Qed.

Lemma log_render_app (i : nat) (x y : list Byte.byte) :
  log_render i (x ++ y)%list = log_render i x ++ log_render (i + List.length x) y.
Proof.
  revert i. induction x as [|b x IH]; intros i.
  - cbn. rewrite Nat.add_0_r. reflexivity.
  - cbn [List.app log_render List.length]. rewrite IH.
    replace (i + S (List.length x)) with (S i + List.length x) by lia.
    rewrite !string_app_assoc. reflexivity.
Qed.

Lemma log_render_inner (m k : nat) (r : list Byte.byte) :
  1 <= k -> k + List.length r <= 16 ->
  log_render (16 * m + k) r = spec_hex_unwrapped r.
Proof.
  revert k. induction r as [|b r IH]; intros k Hk Hlen; [reflexivity|].
  cbn [log_render List.length] in *.
  assert (Hsep : log_sep (16 * m + k) = "").
  { unfold log_sep. rewrite mod16_add by lia.
    destruct k as [|k']; [lia|]. rewrite andb_false_r. reflexivity. }
  rewrite Hsep, fmt_02x_spec.
  replace (S (16 * m + k)) with (16 * m + S k) by lia.
  rewrite IH by lia.
  unfold spec_hex_unwrapped. cbn [map]. rewrite concat_empty_cons. reflexivity.
Qed.

Lemma log_render_first_chunk (m : nat) (b : Byte.byte) (r : list Byte.byte) :
  List.length r <= 15 ->
  log_render (16 * m) (b :: r) = log_sep (16 * m) ++ spec_hex_unwrapped (b :: r).
Proof.
  intros Hlen. cbn [log_render]. rewrite fmt_02x_spec.
  replace (S (16 * m)) with (16 * m + 1) by lia.
  rewrite log_render_inner by lia.
  unfold spec_hex_unwrapped. cbn [map]. rewrite concat_empty_cons. reflexivity.
Qed.

Lemma log_render_chunks (f m : nat) (l : list Byte.byte) :
  List.length l <= f -> l <> [] ->
  log_render (16 * m) l
  = log_sep (16 * m) ++ String.concat newline (map spec_hex_unwrapped (chunks_fuel f 16 l)).
Proof.
  revert m l. induction f as [|f IH]; intros m l Hlen Hne.
  - destruct l; [congruence | cbn in Hlen; lia].
  - destruct l as [|b r]; [congruence|].
    cbn [chunks_fuel map].
    rewrite <- (firstn_skipn 16 (b :: r)) at 1.
    rewrite log_render_app.
    destruct (skipn 16 (b :: r)) as [|c t] eqn:Es.
    + cbn [log_render]. rewrite string_app_nil_r.
      destruct (firstn 16 (b :: r)) as [|b' r'] eqn:Ef.
      { cbn in Ef. discriminate. }
      assert (Hl : List.length (b' :: r') <= 16).
      { rewrite <- Ef, length_firstn. lia. }
      rewrite log_render_first_chunk by (cbn [List.length] in Hl; lia).
      destruct f; reflexivity.
    + assert (Hf : List.length (firstn 16 (b :: r)) = 16).
      { rewrite length_firstn.
        assert (List.length (skipn 16 (b :: r)) >= 1) by (rewrite Es; cbn; lia).
        rewrite length_skipn in H. lia. }
      assert (Ht : List.length (c :: t) <= f).
      { rewrite <- Es, length_skipn. cbn [List.length] in Hlen |- *. lia. }
      rewrite Hf. replace (16 * m + 16) with (16 * S m) by lia.
      rewrite (IH (S m) (c :: t) Ht ltac:(discriminate)).
      destruct (firstn 16 (b :: r)) as [|b' r'] eqn:Ef; [discriminate|].
      rewrite log_render_first_chunk by (cbn [List.length] in Hf; lia).
      assert (Hsep : log_sep (16 * S m) = newline).
      { unfold log_sep. rewrite <- (Nat.add_0_r (16 * S m)).
        rewrite (mod16_add (S m) 0) by lia.
        replace (Nat.ltb 0 (16 * S m)) with true by (symmetry; apply Nat.ltb_lt; lia).
        reflexivity. }
      rewrite Hsep.
      destruct (chunks_fuel f 16 (c :: t)) as [|y ys] eqn:Ec.
      { destruct f; [cbn in Ht; lia | cbn in Ec; discriminate]. }
      cbn [map]. rewrite <- !string_app_assoc. reflexivity.
Qed.

Lemma bytes_to_log_string_render (bs : list Byte.byte) :
  String.length (log_render 0 bs) <= 256 ->
  bytes_to_log_string bs = log_render 0 bs.
Proof.
  intros H. unfold bytes_to_log_string. rewrite log_fold by (cbn; lia).
  reflexivity.
Qed.

(** C6 (counterexample): the two formatters write into a [XousString<256>]
    (modelled from the spec as cutting text at its capacity). An array of
    86 bytes needs 258 characters unwrapped, so [format_hex] cuts it; an
    array of 84 bytes needs 257 characters with its five line breaks, so
    [bytes_to_log_string] cuts it. *)
Lemma hex_formatters_overflow :
  format_hex (repeat Byte.x00 86) <> spec_hex_unwrapped (repeat Byte.x00 86) /\
  bytes_to_log_string (repeat Byte.x00 84) <> spec_hex_wrapped (repeat Byte.x00 84).
Proof.
  split; intros H; apply (f_equal String.length) in H; vm_compute in H; discriminate.
Qed.

(** C6 (amended): for every byte array of at most 85 bytes, [format_hex]
    renders each byte as two lowercase hex digits and a space, unwrapped;
    for every array of at most 83 bytes, [bytes_to_log_string] gives the
    renderings of the 16-byte pieces joined by line breaks. Longer arrays
    overflow the 256-byte buffer; the program only formats 32-byte values. *)
Theorem hex_formatters_spec (bs : list Byte.byte) :
  (List.length bs <= 85 -> format_hex bs = spec_hex_unwrapped bs) /\
  (List.length bs <= 83 -> bytes_to_log_string bs = spec_hex_wrapped bs).
Proof.
  split; intros H.
  - unfold format_hex. rewrite format_hex_fold by (cbn; lia). reflexivity.
  - pose proof (log_render_length 0 bs) as Hl. cbn in Hl.
    rewrite bytes_to_log_string_render by lia.
    destruct bs as [|b r]; [reflexivity|].
    assert (E := log_render_chunks (List.length (b :: r)) 0 (b :: r)
                   (le_n _) ltac:(discriminate)).
    rewrite Nat.mul_0_r in E. rewrite E. reflexivity.
Qed.

Lemma hex_formatters_spec_witness :
  format_hex [Byte.xde; Byte.xad; Byte.xbe; Byte.xef] = "de ad be ef " /\
  format_hex (repeat Byte.x7f 32) = spec_hex_unwrapped (repeat Byte.x7f 32) /\
  bytes_to_log_string (repeat Byte.x7f 32) = spec_hex_wrapped (repeat Byte.x7f 32).
Proof.
  split; [|split].
  - rewrite (proj1 (hex_formatters_spec _)) by (apply Nat.leb_le; reflexivity).
    reflexivity.
  - apply (proj1 (hex_formatters_spec _)). apply Nat.leb_le. reflexivity.
  - apply (proj2 (hex_formatters_spec _)). apply Nat.leb_le. reflexivity.
Defined.

(** ** Further properties of the code *)

(** *** Hex formatting beyond the buffer *)

Lemma truncate_app_truncate (cap : nat) (a b : string) :
  XousString.truncate cap (XousString.truncate cap a ++ b)
  = XousString.truncate cap (a ++ b).
Proof.
  unfold XousString.truncate.
  rewrite !list_ascii_of_string_app, list_ascii_of_string_of_list_ascii.
  rewrite !firstn_app, firstn_firstn, Nat.min_id, length_firstn.
  replace (cap - Nat.min cap (List.length (list_ascii_of_string a)))
    with (cap - List.length (list_ascii_of_string a)) by lia.
  reflexivity.
Qed.

Lemma write_truncate (cap : nat) (a b : string) :
  XousString.write cap (XousString.truncate cap a) b = XousString.truncate cap (a ++ b).
Proof. apply truncate_app_truncate. Qed.

Lemma format_hex_fold_truncate (bs : list Byte.byte) (acc : string) :
  fold_left (fun result b => XousString.write 256 result (fmt_02x b ++ " ")) bs
    (XousString.truncate 256 acc)
  = XousString.truncate 256 (acc ++ spec_hex_unwrapped bs).
Proof.
  revert acc. induction bs as [|b bs IH]; intros acc.
  - cbn [fold_left]. rewrite string_app_nil_r. reflexivity.
  - cbn [fold_left]. rewrite write_truncate, IH.
    rewrite fmt_02x_spec. unfold spec_hex_unwrapped. cbn [map].
    rewrite concat_empty_cons, string_app_assoc. reflexivity.
Qed.

Lemma format_hex_truncate (bs : list Byte.byte) :
  format_hex bs = XousString.truncate 256 (spec_hex_unwrapped bs).
Proof.
  unfold format_hex. change "" with (XousString.truncate 256 "").
  rewrite format_hex_fold_truncate. reflexivity.
Qed.

Lemma log_fold_truncate (bs : list Byte.byte) (s : string) (i : nat) :
  fold_left
    (fun '(s, i) b =>
       let s := if Nat.ltb 0 i && Nat.eqb (i mod 16) 0
                then XousString.write 256 s newline else s in
       (XousString.write 256 s (fmt_02x b ++ " "), S i))
    bs (XousString.truncate 256 s, i)
  = (XousString.truncate 256 (s ++ log_render i bs), i + List.length bs).
Proof.
  revert s i. induction bs as [|b bs IH]; intros s i.
  - cbn. rewrite string_app_nil_r, Nat.add_0_r. reflexivity.
  - cbn [fold_left log_render]. cbv zeta.
    assert (Hs : (if Nat.ltb 0 i && Nat.eqb (i mod 16) 0
                  then XousString.write 256 (XousString.truncate 256 s) newline
                  else XousString.truncate 256 s)
                 = XousString.truncate 256 (s ++ log_sep i)).
    { unfold log_sep. destruct (Nat.ltb 0 i && Nat.eqb (i mod 16) 0).
      - apply write_truncate.
      - rewrite string_app_nil_r. reflexivity. }
    rewrite Hs, write_truncate.
    rewrite IH. rewrite fmt_02x_spec, !string_app_assoc.
    f_equal. cbn [List.length]. lia.
Qed.

Lemma log_render_wrapped (bs : list Byte.byte) :
  log_render 0 bs = spec_hex_wrapped bs.
Proof.
  destruct bs as [|b r]; [reflexivity|].
  assert (E := log_render_chunks (List.length (b :: r)) 0 (b :: r)
                 (le_n _) ltac:(discriminate)).
  rewrite Nat.mul_0_r in E. rewrite E. reflexivity.
Qed.

Lemma bytes_to_log_string_truncate (bs : list Byte.byte) :
  bytes_to_log_string bs = XousString.truncate 256 (spec_hex_wrapped bs).
Proof.
  unfold bytes_to_log_string. change "" with (XousString.truncate 256 "").
  rewrite log_fold_truncate, log_render_wrapped. reflexivity.
Qed.

Lemma bytes_to_log_string_wrapped (bs : list Byte.byte) :
  List.length bs <= 83 -> bytes_to_log_string bs = spec_hex_wrapped bs.
Proof.
  intros H. rewrite bytes_to_log_string_truncate.
  apply XousString_truncate_short. rewrite <- log_render_wrapped.
  pose proof (log_render_length 0 bs) as Hl. cbn in Hl. lia.
Qed.

Lemma format_hex_unwrapped (bs : list Byte.byte) :
  List.length bs <= 85 -> format_hex bs = spec_hex_unwrapped bs.
Proof.
  intros H. rewrite format_hex_truncate.
  apply XousString_truncate_short. rewrite length_spec_hex_unwrapped. lia.
Qed.

(** X1: with [XousString<256>] modelled from the spec as cutting text at
    its capacity, both formatters give, for every byte array, the first 256 bytes of
    the full rendering: unwrapped for [format_hex], wrapped every 16
    bytes for [bytes_to_log_string]. *)
Theorem hex_formatters_cut_at_capacity (bs : list Byte.byte) :
  format_hex bs = XousString.truncate 256 (spec_hex_unwrapped bs) /\
  bytes_to_log_string bs = XousString.truncate 256 (spec_hex_wrapped bs).
Proof. split; [apply format_hex_truncate | apply bytes_to_log_string_truncate]. Qed.

(** *** The hex renderings are one-to-one *)

Lemma unhex_spec_hex_byte (b : Byte.byte) : unhex_byte (spec_hex_byte b) = Some b.
Proof. destruct b; reflexivity. Qed.

Lemma spec_hex_byte_app (b : Byte.byte) (x : string) :
  spec_hex_byte b ++ x =
  String (spec_hex_digit (Byte.to_nat b / 16))
    (String (spec_hex_digit (Byte.to_nat b mod 16)) (String " " x)).
Proof. reflexivity. Qed.

Lemma spec_hex_byte_app_inj (b c : Byte.byte) (x y : string) :
  spec_hex_byte b ++ x = spec_hex_byte c ++ y -> b = c /\ x = y.
Proof.
  intros H. rewrite !spec_hex_byte_app in H.
  injection H as H1 H2 H3. split; [|exact H3].
  assert (E : spec_hex_byte b = spec_hex_byte c)
    by (rewrite <- (string_app_nil_r (spec_hex_byte b)),
          <- (string_app_nil_r (spec_hex_byte c)), !spec_hex_byte_app;
        f_equal; [exact H1 | f_equal; exact H2]).
  apply (f_equal unhex_byte) in E. rewrite !unhex_spec_hex_byte in E.
  injection E as E. exact E.
Qed.

Lemma spec_hex_byte_app_nonempty (b : Byte.byte) (x : string) :
  spec_hex_byte b ++ x <> "".
Proof. unfold spec_hex_byte. discriminate. Qed.

Lemma string_app_cancel_l (a x y : string) : a ++ x = a ++ y -> x = y.
Proof. induction a as [|c a IH]; cbn; [auto | intros H; injection H; auto]. Qed.

Lemma spec_hex_unwrapped_inj (x y : list Byte.byte) :
  spec_hex_unwrapped x = spec_hex_unwrapped y -> x = y.
Proof.
  unfold spec_hex_unwrapped. revert y.
  induction x as [|b x IH]; intros [|c y] H; cbn [map] in H;
    rewrite ?concat_empty_cons in H; [reflexivity | | |].
  - symmetry in H. cbn in H. exfalso. exact (spec_hex_byte_app_nonempty _ _ H).
  - cbn in H. exfalso. exact (spec_hex_byte_app_nonempty _ _ H).
  - apply spec_hex_byte_app_inj in H as [-> H]. f_equal. exact (IH y H).
Qed.

Lemma log_render_nonempty (i : nat) (b : Byte.byte) (r : list Byte.byte) :
  log_render i (b :: r) <> "".
Proof.
  cbn [log_render]. rewrite fmt_02x_spec. unfold log_sep.
  destruct (Nat.ltb 0 i && Nat.eqb (i mod 16) 0); [discriminate|].
  apply spec_hex_byte_app_nonempty.
Qed.

Lemma log_render_inj (i : nat) (x y : list Byte.byte) :
  log_render i x = log_render i y -> x = y.
Proof.
  revert i y. induction x as [|b x IH]; intros i [|c y] H; [reflexivity | | |].
  - symmetry in H. exfalso. exact (log_render_nonempty _ _ _ H).
  - exfalso. exact (log_render_nonempty _ _ _ H).
  - cbn [log_render] in H. rewrite !fmt_02x_spec in H.
    apply string_app_cancel_l in H.
    apply spec_hex_byte_app_inj in H as [-> H]. f_equal. exact (IH _ _ H).
Qed.

(** X2: distinct byte arrays get distinct renderings: on screen for arrays
    of at most 85 bytes, in the log for arrays of at most 83 bytes (in
    particular for the 32-byte keys and secrets of a run). *)
Theorem hex_formatters_injective (x y : list Byte.byte) :
  (List.length x <= 85 -> List.length y <= 85 -> format_hex x = format_hex y -> x = y) /\
  (List.length x <= 83 -> List.length y <= 83 ->
     bytes_to_log_string x = bytes_to_log_string y -> x = y).
Proof.
  split; intros Hx Hy H.
  - rewrite !format_hex_unwrapped in H by assumption.
    exact (spec_hex_unwrapped_inj _ _ H).
  - rewrite !bytes_to_log_string_wrapped, <- !log_render_wrapped in H by assumption.
    exact (log_render_inj _ _ _ H).
Qed.

(** X2 witness. *)
Lemma hex_formatters_injective_witness :
  format_hex (repeat Byte.x00 32) <> format_hex (repeat Byte.x01 32) /\
  bytes_to_log_string (repeat Byte.x00 32) <> bytes_to_log_string (repeat Byte.x01 32).
Proof.
  split; intros H.
  - apply (proj1 (hex_formatters_injective (repeat Byte.x00 32) (repeat Byte.x01 32)))
      in H; [discriminate H | apply Nat.leb_le; reflexivity | apply Nat.leb_le; reflexivity].
  - apply (proj2 (hex_formatters_injective (repeat Byte.x00 32) (repeat Byte.x01 32)))
      in H; [discriminate H | apply Nat.leb_le; reflexivity | apply Nat.leb_le; reflexivity].
Defined.

(** *** What a run shows and logs *)

Lemma hex_message_fits (label : string) (bs : list Byte.byte) :
  List.length bs <= 85 -> String.length label + 3 * List.length bs <= 512 ->
  hex_message label bs = label ++ spec_hex_unwrapped bs.
Proof.
  intros H1 H2. unfold hex_message. cbn [XousString.unwrap_or XousString.as_str].
  rewrite format_hex_unwrapped by exact H1.
  rewrite XousString_write_fits
    by (cbn [String.length]; rewrite string_length_app, length_spec_hex_unwrapped; lia).
  reflexivity.
Qed.

Lemma length_run_messages pub dh a b : List.length (run_messages pub dh a b) = 11.
Proof. reflexivity. Qed.

Lemma cmd_run_history_in pub dh st a b (x : string) :
  List.length (history st) <= MAX_HISTORY -> In x (run_messages pub dh a b) ->
  In (log_entry x) (history (cmd_run pub dh st a b)).
Proof.
  intros Hle Hin. rewrite cmd_run_history, history_fold by exact Hle.
  rewrite length_run_messages, skipn_app.
  replace (List.length (history st) + 11 - MAX_HISTORY - List.length (history st))
    with 0 by (unfold MAX_HISTORY in *; lia).
  apply in_or_app. right. apply in_map. exact Hin.
Qed.

Lemma log_entry_hex_message (label : string) (bs : list Byte.byte) :
  List.length bs <= 85 -> String.length label <= 10 ->
  log_entry (hex_message label bs) = label ++ spec_hex_unwrapped bs.
Proof.
  intros H1 H2. rewrite hex_message_fits by lia.
  apply XousString_truncate_short.
  rewrite string_length_app, length_spec_hex_unwrapped. lia.
Qed.

(** X3: a run on a log of at most 20 entries leaves in the log the four
    value lines with the complete unwrapped hex of the local private key,
    the local public key, the peer public key and the shared secret,
    whenever each of these has at most 85 bytes (the 32-byte values of
    x25519 among them). *)
Theorem cmd_run_shows_full_values pub dh st a b :
  List.length (history st) <= MAX_HISTORY ->
  List.length a <= 85 -> List.length (pub a) <= 85 ->
  List.length (pub b) <= 85 -> List.length (dh a (pub b)) <= 85 ->
  let h := history (cmd_run pub dh st a b) in
  In ("Our priv: " ++ spec_hex_unwrapped a) h /\
  In ("Our pub:  " ++ spec_hex_unwrapped (pub a)) h /\
  In ("Peer pub: " ++ spec_hex_unwrapped (pub b)) h /\
  In ("Shared:   " ++ spec_hex_unwrapped (dh a (pub b))) h.
Proof.
  intros Hle Ha Hpa Hpb Hs h. unfold h.
  repeat split;
    [ rewrite <- (log_entry_hex_message "Our priv: " a) by (cbn; lia)
    | rewrite <- (log_entry_hex_message "Our pub:  " (pub a)) by (cbn; lia)
    | rewrite <- (log_entry_hex_message "Peer pub: " (pub b)) by (cbn; lia)
    | rewrite <- (log_entry_hex_message "Shared:   " (dh a (pub b))) by (cbn; lia) ];
    apply cmd_run_history_in; try exact Hle; unfold run_messages; cbv zeta; cbn [In].
  - right; right; left; reflexivity.
  - do 3 right; left; reflexivity.
  - do 5 right; left; reflexivity.
  - do 7 right; left; reflexivity.
Qed.

Lemma log_sink_info (st : EcdhTestUi) (l : string) :
  log_sink (info st l) = (log_sink st ++ [l])%list.
Proof. reflexivity. Qed.

Lemma log_sink_add_message (st : EcdhTestUi) (m : string) :
  log_sink (add_message st m) = log_sink st.
Proof. reflexivity. Qed.

Lemma cmd_run_log pub dh st a b :
  exists verdict : string,
  log_sink (cmd_run pub dh st a b) =
  List.app (log_sink st)
   [ "=== STARTING ECDH TEST ===";
     "Our private key: " ++ bytes_to_log_string a;
     "Our public key: " ++ bytes_to_log_string (pub a);
     "Peer private key: " ++ bytes_to_log_string b;
     "Peer public key: " ++ bytes_to_log_string (pub b);
     "Computing ECDH: our_private.diffie_hellman(peer_public)";
     "  Input private: " ++ bytes_to_log_string a;
     "  Input public:  " ++ bytes_to_log_string (pub b);
     "  Output shared: " ++ bytes_to_log_string (dh a (pub b));
     verdict;
     "=== ECDH TEST COMPLETE ===" ].
Proof.
  unfold cmd_run. cbv zeta.
  destruct (bytes_eqb (dh a (pub b)) (pub b));
    [ exists "Shared secret equals peer public key!"
    | destruct (bytes_eqb (dh a (pub b)) (pub a));
      [ exists "Shared secret equals our public key!"
      | exists "ECDH output looks correct" ] ];
    repeat (rewrite log_sink_info || rewrite log_sink_add_message);
    rewrite <- ?app_assoc; reflexivity.
Qed.

(** X4: a run writes both private keys in full to the log, wrapped every
    16 bytes, whenever they have at most 83 bytes (the 32-byte TRNG
    secrets among them). *)
Theorem cmd_run_logs_private_keys pub dh st a b :
  List.length a <= 83 -> List.length b <= 83 ->
  In ("Our private key: " ++ spec_hex_wrapped a) (log_sink (cmd_run pub dh st a b)) /\
  In ("Peer private key: " ++ spec_hex_wrapped b) (log_sink (cmd_run pub dh st a b)).
Proof.
  intros Ha Hb. destruct (cmd_run_log pub dh st a b) as [v ->].
  rewrite <- (bytes_to_log_string_wrapped a Ha), <- (bytes_to_log_string_wrapped b Hb).
  split; apply in_or_app; right; cbn [In].
  - right; left; reflexivity.
  - do 3 right; left; reflexivity.
Qed.

(** X3 witness. *)
Lemma cmd_run_shows_full_values_witness :
  In ("Our priv: " ++ spec_hex_unwrapped (repeat Byte.x11 32))
     (history (cmd_run (fun s => s) (fun s p => p) (mkUi [] (mkPoint 100 100) [] [])
                (repeat Byte.x11 32) (repeat Byte.x22 32))).
Proof.
  destruct (cmd_run_shows_full_values (fun s => s) (fun s p => p)
              (mkUi [] (mkPoint 100 100) [] []) (repeat Byte.x11 32) (repeat Byte.x22 32))
    as [H _]; [apply Nat.leb_le; reflexivity .. | exact H].
Defined.

(** X4 witness. *)
Lemma cmd_run_logs_private_keys_witness :
  In ("Peer private key: " ++ spec_hex_wrapped (repeat Byte.x22 32))
     (log_sink (cmd_run (fun s => s) (fun s p => p) (mkUi [] (mkPoint 100 100) [] [])
                (repeat Byte.x11 32) (repeat Byte.x22 32))).
Proof.
  destruct (cmd_run_logs_private_keys (fun s => s) (fun s p => p)
              (mkUi [] (mkPoint 100 100) [] []) (repeat Byte.x11 32) (repeat Byte.x22 32))
    as [_ H]; [apply Nat.leb_le; reflexivity .. | exact H].
Defined.

(** *** The event loop of [main] *)





(** X7: the loop ends at the first [Quit] message: the messages after it
    are never handled, and the run is reported as ended by [Quit]. *)
Theorem serve_stops_at_quit pub dh st ms q rest :
  body_id q = 3 ->
  serve pub dh st (ms ++ q :: rest) = serve pub dh st (ms ++ [q]) /\
  snd (serve pub dh st (ms ++ q :: rest)) = true.
Proof.
  intros H. revert st. induction ms as [|m ms IH]; intros st.
  - cbn [app serve].
    assert (E : dispatch pub dh st q = None) by (unfold dispatch; rewrite H; reflexivity).
    rewrite E. split; reflexivity.
  - cbn [app serve]. destruct (dispatch pub dh st m); [apply IH | split; reflexivity].
Qed.

(** X7 witness. *)
Lemma serve_stops_at_quit_witness :
  serve (fun s => s) (fun s p => p) (mkUi [] (mkPoint 100 100) [] [])
    [mkMessage 0 "" [] []; mkMessage 3 "" [] []; mkMessage 1 "clear" [] []]
  = serve (fun s => s) (fun s p => p) (mkUi [] (mkPoint 100 100) [] [])
      [mkMessage 0 "" [] []; mkMessage 3 "" [] []].
Proof.
  exact (proj1 (serve_stops_at_quit (fun s => s) (fun s p => p)
                  (mkUi [] (mkPoint 100 100) [] []) [mkMessage 0 "" [] []]
                  (mkMessage 3 "" [] []) [mkMessage 1 "clear" [] []] eq_refl)).
Defined.

Lemma length_history_push_pos (h : list string) (m : string) :
  List.length h <= MAX_HISTORY -> 1 <= List.length (history_push h m).
Proof.
  intros Hle. rewrite history_push_spec by exact Hle.
  rewrite length_app. cbn [List.length]. lia.
Qed.

Lemma length_fold_history_push_pos (xs h : list string) :
  List.length h <= MAX_HISTORY -> xs <> [] ->
  1 <= List.length (fold_left history_push xs h).
Proof.
  intros Hle Hne. rewrite history_fold by exact Hle.
  rewrite length_skipn, length_app, length_map.
  destruct xs; [congruence|]. cbn [List.length]. unfold MAX_HISTORY. lia.
Qed.

Lemma length_handle_input_pos pub dh st input a b :
  List.length (history st) <= MAX_HISTORY ->
  1 <= List.length (history (handle_input pub dh st input a b)).
Proof.
  intros Hle. rewrite handle_input_echo. cbv zeta.
  assert (H1 : List.length (history (add_message st (">" ++ input))) <= MAX_HISTORY)
    by (apply length_history_push, Hle).
  destruct (String.eqb (trim input) "run").
  - rewrite cmd_run_history. apply length_fold_history_push_pos; [exact H1|].
    unfold run_messages. discriminate.
  - destruct (String.eqb (trim input) "clear");
      apply length_history_push_pos; [simpl; unfold MAX_HISTORY; lia | exact H1].
Qed.

Lemma history_step_bounds pub dh st op :
  1 <= List.length (history st) <= MAX_HISTORY ->
  1 <= List.length (history (step pub dh st op)) <= MAX_HISTORY.
Proof.
  intros Hb. destruct op as [|input a b|]; unfold step; [exact Hb| |exact Hb].
  rewrite history_redraw. split.
  - apply length_handle_input_pos. rewrite history_info. apply Hb.
  - apply length_handle_input. rewrite history_info. apply Hb.
Qed.

Lemma dispatch_some pub dh st m st' :
  dispatch pub dh st m = Some st' ->
  (exists op, st' = step pub dh st op) \/ history st' = history st.
Proof.
  unfold dispatch. destruct (from_usize (body_id m)) as [[| | |]|]; intros E;
    try discriminate.
  - left. exists Redraw. congruence.
  - left. exists (Line (body_line m) (line_our m) (line_peer m)). congruence.
  - left. exists ChangeFocus. congruence.
  - right. injection E as <-. reflexivity.
Qed.

Lemma history_serve_bounds pub dh st ms :
  1 <= List.length (history st) <= MAX_HISTORY ->
  1 <= List.length (history (fst (serve pub dh st ms))) <= MAX_HISTORY.
Proof.
  revert st. induction ms as [|m ms IH]; intros st Hb; [exact Hb|].
  cbn [serve]. destruct (dispatch pub dh st m) as [st'|] eqn:E; [|exact Hb].
  apply IH. destruct (dispatch_some _ _ _ _ _ E) as [[op ->] | ->].
  - apply history_step_bounds, Hb.
  - exact Hb.
Qed.

(** X8: from start-up on, whatever messages arrive, the log of entries is
    never empty and never holds more than 20 entries. *)
Theorem main_run_history_bounds pub dh sz msgs :
  1 <= List.length (history (fst (main_run pub dh sz msgs))) <= MAX_HISTORY.
Proof.
  unfold main_run. apply history_serve_bounds.
  change (history (init sz)) with ["ECDH Test App v0.1.0"; "Type 'help' for commands"].
  cbn. unfold MAX_HISTORY. lia.
Qed.

(** *** The newest entry after a line of input *)

Lemma last_history_push (h : list string) (m : string) :
  List.length h <= MAX_HISTORY -> last (history_push h m) "" = log_entry m.
Proof. intros Hle. rewrite history_push_spec by exact Hle. apply last_last. Qed.

Lemma run_messages_last pub dh a b :
  run_messages pub dh a b =
  (removelast (run_messages pub dh a b) ++ ["=== TEST COMPLETE ==="])%list.
Proof. reflexivity. Qed.

Lemma last_history_handle_input pub dh st input a b :
  List.length (history st) <= MAX_HISTORY ->
  last (history (handle_input pub dh st input a b)) "" =
  (if String.eqb (trim input) "run" then "=== TEST COMPLETE ==="
   else if String.eqb (trim input) "clear" then "Screen cleared"
   else "Type 'run' to test ECDH").
Proof.
  intros Hle. rewrite handle_input_echo. cbv zeta.
  assert (H1 : List.length (history (add_message st (">" ++ input))) <= MAX_HISTORY)
    by (apply length_history_push, Hle).
  destruct (String.eqb (trim input) "run").
  - rewrite cmd_run_history, run_messages_last, fold_left_app. cbn [fold_left].
    rewrite last_history_push by (apply length_fold_history_push, H1).
    reflexivity.
  - destruct (String.eqb (trim input) "clear");
      rewrite history_add_message, last_history_push;
      [reflexivity | simpl; unfold MAX_HISTORY; lia | reflexivity | exact H1].
Qed.

(** X9: on a log of at most 20 entries, the newest entry after a line of
    input is the answer of its command: [=== TEST COMPLETE ===] for [run],
    [Screen cleared] for [clear], and the hint [Type 'run' to test ECDH]
    for anything else; so it is this answer, not the echo, that [redraw]
    puts on the bottom line. *)
Theorem handle_input_newest_entry pub dh st input a b :
  List.length (history st) <= MAX_HISTORY ->
  last (history (handle_input pub dh st input a b)) "" =
  (if String.eqb (trim input) "run" then "=== TEST COMPLETE ==="
   else if String.eqb (trim input) "clear" then "Screen cleared"
   else "Type 'run' to test ECDH").
Proof. apply last_history_handle_input. Qed.

(** X9 witness: the [help] the start-up message advertises is no command. *)
Lemma handle_input_newest_entry_witness :
  last (history (handle_input (fun s => s) (fun s p => p)
    (mkUi ["ECDH Test App v0.1.0"; "Type 'help' for commands"] (mkPoint 100 100) [] [])
    "help" [] [])) "" = "Type 'run' to test ECDH".
Proof.
  rewrite (handle_input_newest_entry (fun s => s) (fun s p => p)
    (mkUi ["ECDH Test App v0.1.0"; "Type 'help' for commands"] (mkPoint 100 100) [] [])
    "help" [] []) by (apply Nat.leb_le; reflexivity).
  reflexivity.
Defined.

(** *** The layout of [redraw] *)

Lemma post_lines_layout (sx y : Z) (msgs : list string) :
  post_lines sx y msgs =
  map (fun j => PostTextView (mkPoint 4 (y - 16 * Z.of_nat (S j)))
                  (mkPoint (sx - 4) (y - 16 * Z.of_nat j)) (nth j msgs ""))
      (seq 0 (Nat.min (List.length msgs)
                (if (y <? 0)%Z then 1 else S (Z.to_nat (y / 16))))).
Proof.
  revert y. induction msgs as [|m rest IH]; intros y; [reflexivity|].
  cbn [post_lines XousString.as_str List.length]. unfold margin, line_height.
  assert (Hc : Nat.min (S (List.length rest)) (if (y <? 0)%Z then 1 else S (Z.to_nat (y / 16)))
               = S (Nat.min (List.length rest)
                      ((if (y <? 0)%Z then 1 else S (Z.to_nat (y / 16))) - 1)))
    by (destruct (y <? 0)%Z; lia).
  rewrite Hc. cbn [seq map nth]. f_equal.
  { f_equal; f_equal; lia. }
  destruct (y - 16 <? 0)%Z eqn:Ey.
  - apply Z.ltb_lt in Ey.
    assert (H0 : (if (y <? 0)%Z then 1 else S (Z.to_nat (y / 16))) - 1 = 0).
    { destruct (y <? 0)%Z eqn:Y; [reflexivity|].
      apply Z.ltb_ge in Y. rewrite Z.div_small by lia. reflexivity. }
    rewrite H0, Nat.min_0_r. reflexivity.
  - apply Z.ltb_ge in Ey.
    assert (H0 : (if (y <? 0)%Z then 1 else S (Z.to_nat (y / 16))) - 1
                 = (if (y - 16 <? 0)%Z then 1 else S (Z.to_nat ((y - 16) / 16)))).
    { replace (y <? 0)%Z with false by (symmetry; apply Z.ltb_ge; lia).
      replace (y - 16 <? 0)%Z with false by (symmetry; apply Z.ltb_ge; lia).
      replace (y / 16)%Z with ((y - 16) / 16 + 1)%Z.
      - rewrite Z2Nat.inj_add by (try apply Z.div_pos; lia). cbn. lia.
      - replace y with ((y - 16) + 1 * 16)%Z at 2 by lia.
        rewrite Z.div_add by lia. reflexivity. }
    rewrite H0, IH, <- seq_shift, map_map.
    apply map_ext. intros j. cbn [nth]. f_equal; f_equal; lia.
Qed.

(** X10: [redraw] sends the canvas clear over the whole screen, then one
    16-unit text box per entry, newest first, stacked upwards from the
    baseline [y0 = screensize.y - 4] (entry [j] from the newest in the box
    from [(4, y0 - 16 (j+1))] to [(screensize.x - 4, y0 - 16 j)]), then the
    GAM redraw. It draws [min n (y0 / 16 + 1)] boxes for a log of [n]
    entries, and one box when [y0] is negative. *)
Theorem redraw_layout (st : EcdhTestUi) :
  let sz := screensize st in
  let y0 := (py sz - 4)%Z in
  gam_out (redraw st) =
  (gam_out st ++
   DrawRectangle (mkPoint 0 0) sz ::
   map (fun j => PostTextView (mkPoint 4 (y0 - 16 * Z.of_nat (S j)))
                   (mkPoint (px sz - 4) (y0 - 16 * Z.of_nat j))
                   (nth j (rev (history st)) ""))
       (seq 0 (Nat.min (List.length (history st))
                 (if (y0 <? 0)%Z then 1 else S (Z.to_nat (y0 / 16))))) ++
   [GamRedraw])%list.
Proof.
  intros sz y0. unfold redraw, post. cbn [gam_out history screensize].
  rewrite post_lines_layout, length_rev. rewrite <- !app_assoc. reflexivity.
Qed.

(** *** [trim] on a command typed with surrounding ASCII whitespace *)

Lemma strip_first_ascii_space (c : ascii) (l : list ascii) :
  is_ascii_space c = true ->
  strip_first ws_seqs (c :: l) = Some l /\
  strip_first (map (@rev ascii) ws_seqs) (c :: l) = Some l.
Proof.
  intros H. unfold is_ascii_space in H.
  apply existsb_exists in H as [k [Hk Hkc]]. apply Nat.eqb_eq in Hkc.
  rewrite <- (ascii_nat_embedding c), Hkc.
  repeat (destruct Hk as [<- | Hk]; [split; reflexivity|]). destruct Hk.
Qed.

Lemma strip_prefix_mismatch (d c : ascii) (p l : list ascii) :
  Ascii.eqb d c = false -> strip_prefix (d :: p) (c :: l) = None.
Proof. intros H. cbn. rewrite H. reflexivity. Qed.

Lemma strip_first_none (seqs : list (list ascii)) (c : ascii) (l : list ascii) :
  forallb (head_differs c) seqs = true -> strip_first seqs (c :: l) = None.
Proof.
  induction seqs as [|p ps IH]; intros H; [reflexivity|].
  cbn [forallb] in H. apply andb_true_iff in H as [Hp Hps].
  destruct p as [|d p]; [discriminate|]. cbn [head_differs] in Hp.
  apply negb_true_iff in Hp. cbn [strip_first].
  rewrite strip_prefix_mismatch by exact Hp. apply IH, Hps.
Qed.

Lemma graphic_not_ws (c : ascii) :
  is_graphic c = true ->
  forallb (head_differs c) ws_seqs = true /\
  forallb (head_differs c) (map (@rev ascii) ws_seqs) = true.
Proof.
  intros H. unfold is_graphic in H. apply andb_true_iff in H as [H1 H2].
  apply Nat.leb_le in H1, H2.
  assert (All : forallb (fun n => forallb (head_differs (ascii_of_nat n)) ws_seqs &&
                                  forallb (head_differs (ascii_of_nat n))
                                    (map (@rev ascii) ws_seqs))
                  (seq 33 94) = true) by reflexivity.
  rewrite forallb_forall in All.
  specialize (All (nat_of_ascii c) ltac:(apply in_seq; lia)).
  rewrite ascii_nat_embedding in All. apply andb_true_iff in All. exact All.
Qed.

Lemma trim_start_spaces (seqs : list (list ascii)) (f : nat) (p l : list ascii) :
  (forall c l', is_ascii_space c = true -> strip_first seqs (c :: l') = Some l') ->
  forallb is_ascii_space p = true -> List.length p <= f ->
  trim_start_bytes f seqs (p ++ l) = trim_start_bytes (f - List.length p) seqs l.
Proof.
  intros Hs. revert f. induction p as [|c p IH]; intros f Hp Hf.
  - rewrite Nat.sub_0_r. reflexivity.
  - cbn [forallb] in Hp. apply andb_true_iff in Hp as [Hc Hp].
    destruct f as [|f]; [cbn in Hf; lia|].
    cbn [app trim_start_bytes]. rewrite (Hs c _ Hc).
    rewrite IH by (first [exact Hp | cbn in Hf; lia]). reflexivity.
Qed.

Lemma trim_start_stop (seqs : list (list ascii)) (f : nat) (l : list ascii) :
  strip_first seqs l = None -> trim_start_bytes f seqs l = l.
Proof. intros H. destruct f; cbn; [reflexivity | rewrite H; reflexivity]. Qed.

Lemma forallb_rev {A} (g : A -> bool) (l : list A) :
  forallb g (rev l) = forallb g l.
Proof.
  destruct (forallb g l) eqn:E.
  - apply forallb_forall. intros x Hx. apply in_rev in Hx.
    rewrite forallb_forall in E. auto.
  - apply not_true_iff_false. intros H. apply not_true_iff_false in E. apply E.
    apply forallb_forall. intros x Hx. rewrite forallb_forall in H.
    apply H. apply in_rev. rewrite rev_involutive. exact Hx.
Qed.

(** X11: [handle_input] matches the command on the input with its leading
    and trailing ASCII whitespace removed: a word [w] whose first and last
    bytes are graphic ASCII characters, typed with any run of spaces, tabs,
    line feeds, vertical tabs, form feeds or carriage returns before and
    after it, is trimmed back to [w] exactly. *)
Theorem trim_surrounding_ascii_space (p w q : string) :
  forallb is_ascii_space (list_ascii_of_string p) = true ->
  forallb is_ascii_space (list_ascii_of_string q) = true ->
  starts_graphic (list_ascii_of_string w) = true ->
  starts_graphic (rev (list_ascii_of_string w)) = true ->
  trim (p ++ w ++ q) = w.
Proof.
  intros Hp Hq Hw1 Hw2. unfold trim. rewrite !list_ascii_of_string_app.
  set (P := list_ascii_of_string p) in *. set (W := list_ascii_of_string w) in *.
  set (Q := list_ascii_of_string q) in *.
  rewrite (trim_start_spaces ws_seqs (List.length (P ++ W ++ Q)) P (W ++ Q));
    [| intros c l' Hc; exact (proj1 (strip_first_ascii_space c l' Hc))
     | exact Hp | rewrite !length_app; lia ].
  rewrite (trim_start_stop ws_seqs _ (W ++ Q)).
  2:{ destruct W as [|c W']; [discriminate|]. apply strip_first_none.
      apply (graphic_not_ws c Hw1). }
  rewrite rev_app_distr.
  rewrite (trim_start_spaces (map (@rev ascii) ws_seqs) (List.length (W ++ Q))
             (rev Q) (rev W));
    [| intros c l' Hc; exact (proj2 (strip_first_ascii_space c l' Hc))
     | rewrite forallb_rev; exact Hq
     | rewrite length_app, length_rev; lia ].
  rewrite (trim_start_stop (map (@rev ascii) ws_seqs) _ (rev W)).
  2:{ destruct (rev W) as [|c W']; [discriminate|]. apply strip_first_none.
      apply (graphic_not_ws c Hw2). }
  rewrite rev_involutive. apply string_of_list_ascii_of_string.
Qed.

(** X11 witness. *)
Lemma trim_surrounding_ascii_space_witness :
  trim (String (ascii_of_nat 9) " " ++ "run" ++ String (ascii_of_nat 13) newline) = "run".
Proof. apply trim_surrounding_ascii_space; reflexivity. Defined.

(** *** The frame drawn after a line of input *)

Lemma gam_out_info (st : EcdhTestUi) (l : string) : gam_out (info st l) = gam_out st.
Proof. reflexivity. Qed.

Lemma gam_out_add_message (st : EcdhTestUi) (m : string) :
  gam_out (add_message st m) = gam_out st.
Proof. reflexivity. Qed.

Lemma screensize_info (st : EcdhTestUi) (l : string) :
  screensize (info st l) = screensize st.
Proof. reflexivity. Qed.

Lemma screensize_add_message (st : EcdhTestUi) (m : string) :
  screensize (add_message st m) = screensize st.
Proof. reflexivity. Qed.

Lemma cmd_run_screen pub dh st a b :
  gam_out (cmd_run pub dh st a b) = gam_out st /\
  screensize (cmd_run pub dh st a b) = screensize st.
Proof.
  unfold cmd_run. cbv zeta.
  destruct (bytes_eqb (dh a (pub b)) (pub b));
    [| destruct (bytes_eqb (dh a (pub b)) (pub a))];
    split; repeat (rewrite gam_out_info || rewrite gam_out_add_message
                   || rewrite screensize_info || rewrite screensize_add_message);
    reflexivity.
Qed.

Lemma handle_input_screen pub dh st input a b :
  gam_out (handle_input pub dh st input a b) = gam_out st /\
  screensize (handle_input pub dh st input a b) = screensize st.
Proof.
  rewrite handle_input_echo. cbv zeta.
  destruct (String.eqb (trim input) "run").
  { destruct (cmd_run_screen pub dh (add_message st (">" ++ input)) a b) as [G S].
    rewrite G, S. split; reflexivity. }
  destruct (String.eqb (trim input) "clear"); split; reflexivity.
Qed.

Lemma rev_last (h : list string) :
  h <> [] -> rev h = last h "" :: rev (removelast h).
Proof.
  intros H. rewrite (app_removelast_last "" H) at 1.
  rewrite rev_app_distr. reflexivity.
Qed.

(** X12: on a log of at most 20 entries, the frame a [Line] message draws
    starts with the canvas clear and then the bottom text box, from
    [(4, screensize.y - 20)] to [(screensize.x - 4, screensize.y - 4)],
    which shows the answer of the command: [=== TEST COMPLETE ===],
    [Screen cleared] or [Type 'run' to test ECDH]. *)
Theorem line_step_bottom_box pub dh st input a b :
  List.length (history st) <= MAX_HISTORY ->
  let sz := screensize st in
  exists rest,
    gam_out (step pub dh st (Line input a b)) =
    (gam_out st ++ DrawRectangle (mkPoint 0 0) sz ::
     PostTextView (mkPoint 4 (py sz - 20)) (mkPoint (px sz - 4) (py sz - 4))
       (if String.eqb (trim input) "run" then "=== TEST COMPLETE ==="
        else if String.eqb (trim input) "clear" then "Screen cleared"
        else "Type 'run' to test ECDH") :: rest)%list.
Proof.
  intros Hle sz.
  set (st1 := handle_input pub dh (info st ("Received input: " ++ input)) input a b).
  assert (Hst1 : List.length (history (info st ("Received input: " ++ input))) <= MAX_HISTORY)
    by exact Hle.
  assert (Hne : history st1 <> []).
  { intros E. pose proof (length_handle_input_pos pub dh _ input a b Hst1) as P.
    fold st1 in P. rewrite E in P. cbn in P. lia. }
  destruct (handle_input_screen pub dh (info st ("Received input: " ++ input)) input a b)
    as [Hg Hs]. fold st1 in Hg, Hs.
  unfold step. fold st1. unfold redraw, post. cbn [gam_out history screensize].
  rewrite Hg, Hs. rewrite (rev_last _ Hne). unfold st1.
  rewrite (last_history_handle_input pub dh _ input a b Hst1).
  cbn [post_lines XousString.as_str]. unfold margin, line_height.
  eexists. rewrite <- !app_assoc. cbn [app].
  f_equal. f_equal. f_equal. f_equal; f_equal; unfold sz; cbn [screensize info]; lia.
Qed.

(** X12 witness. *)
Lemma line_step_bottom_box_witness :
  exists rest,
    gam_out (step (fun s => s) (fun s p => p) (mkUi [] (mkPoint 100 100) [] [])
               (Line "clear" [] [])) =
    DrawRectangle (mkPoint 0 0) (mkPoint 100 100) ::
    PostTextView (mkPoint 4 80) (mkPoint 96 96) "Screen cleared" :: rest.
Proof.
  destruct (line_step_bottom_box (fun s => s) (fun s p => p)
              (mkUi [] (mkPoint 100 100) [] []) "clear" [] [])
    as [rest H]; [apply Nat.leb_le; reflexivity|].
  exists rest. exact H.
Defined.
